(** * can-joystick: CAN frames to uinput events

    A shallow embedding of [main.cc]: the four frame handlers
    ([HandleThrottlePos], [HandleBrakePos], [HandleSteeringPos],
    [HandlePaddleShifter]), the dispatcher [HandleCanMessage], the batch
    callback [CanPacketCallback] and the axis ranges that
    [InitUinputDevice] writes into the device descriptor.

    The handlers call [write], [fprintf(stderr, ...)] and [exit]; these are
    modelled by a small state-and-exit monad over a [World] that records every
    [write] submitted to the uinput descriptor together with the value the
    call returned, and every line sent to stderr. *)

From Stdlib Require Import ZArith List String Bool Lia.
Import ListNotations.
Open Scope Z_scope.

(** ** Fixed-width integers

    C integers are modelled as [Z]; a conversion to a narrower type is
    written out as the wrap-around it performs. *)

Definition to_uint16 (x : Z) : Z := x mod 65536.
Definition to_int16 (x : Z) : Z := (x + 32768) mod 65536 - 32768.
Definition to_int32 (x : Z) : Z := (x + 2147483648) mod 4294967296 - 2147483648.

(** Conversion of an integer to [bool]: non-zero is [true]. *)
Definition to_bool (x : Z) : bool := negb (x =? 0).

(** ** Frames *)

(** [struct can_frame]: identifier, data length code, 8 payload bytes.
    The structure is declared in the CAN headers that [usbcan.h] pulls in,
    not in [main.cc]; the fields are the three the handlers read. *)
Record can_frame : Type := mk_can_frame
  { can_id : Z; can_dlc : Z; data : list Z }.

(** [struct usbcan_msg]: the handlers only read its [frame] member. *)
Record usbcan_msg : Type := mk_usbcan_msg { frame : can_frame }.

(** [msg->frame.data[i]] *)
Definition data_at (msg : usbcan_msg) (i : nat) : Z :=
  nth i (data (frame msg)) 0.

(** What the C types guarantee of a frame: a 32-bit identifier, an 8-bit
    length code and an array of exactly eight bytes. *)
Definition is_byte (b : Z) : bool := (0 <=? b) && (b <? 256).

Definition wf_msgb (msg : usbcan_msg) : bool :=
  (0 <=? can_id (frame msg)) && (can_id (frame msg) <? 4294967296)
  && is_byte (can_dlc (frame msg))
  && (List.length (data (frame msg)) =? 8)%nat
  && forallb is_byte (data (frame msg)).

Definition wf_msg (msg : usbcan_msg) : Prop := wf_msgb msg = true.

(** ** Input events *)

Inductive ev_type : Type := EV_SYN | EV_KEY | EV_ABS.

Inductive ev_code : Type :=
  | SYN_REPORT
  | ABS_WHEEL | ABS_GAS | ABS_BRAKE
  | BTN_GEAR_UP | BTN_GEAR_DOWN.

(** [struct input_event] of [linux/input.h]; its timestamp is left zero by
    every caller and is not modelled. [value] is a signed 32-bit field.
    Event types and codes are kept symbolic: only the ones [main.cc] names
    occur. *)
Record input_event : Type := mk_input_event
  { type : ev_type; code : ev_code; value : Z }.

Definition ev_type_eqb (a b : ev_type) : bool :=
  match a, b with
  | EV_SYN, EV_SYN | EV_KEY, EV_KEY | EV_ABS, EV_ABS => true
  | _, _ => false
  end.

(** ** Identifiers and limits (the constants of the anonymous namespace) *)

Definition kThrottleId : Z := 0x01a1.
Definition kSteeringId : Z := 0x01e5.
Definition kBrakeId : Z := 0x00f1.
Definition kPaddleShifterId : Z := 0x01f3.

Definition kBrakeLimit : Z := 0x4b.
Definition kThrottleLimit : Z := 0xfe.
Definition kSteeringLimit : Z := 0x1d00.

(** ** The process and its environment *)

(** A line printed to stderr: the format string, and whether [errno] and
    [strerror(errno)] were formatted into it. The trailing newline of each
    format is left out. *)
Inductive stderr_line : Type :=
  | Fprintf (fmt : string)
  | FprintfErrno (fmt : string).

(** The observable state: every [write] submitted to the uinput descriptor,
    in order, paired with the value the call returned (negative on
    failure), and the lines printed to stderr. *)
Record World : Type := mk_World
  { uinput : list (input_event * Z); stderr : list stderr_line }.

(** A run either returns to its caller or ends the process through [exit]. *)
Inductive outcome (A : Type) : Type :=
  | Returned (a : A) (w : World)
  | Exited (status : Z) (w : World).
Arguments Returned {A} a w.
Arguments Exited {A} status w.

Definition proc (A : Type) : Type := World -> outcome A.

Definition ret {A : Type} (a : A) : proc A := fun w => Returned a w.

Definition bind {A B : Type} (c : proc A) (k : A -> proc B) : proc B :=
  fun w =>
    match c w with
    | Returned a w' => k a w'
    | Exited status w' => Exited status w'
    end.

Declare Scope proc_scope.
Delimit Scope proc_scope with proc.
Notation "'call' x <- c ; k" := (bind c (fun x => k))
  (at level 10, x name, c at level 100, k at level 200) : proc_scope.
Notation "c ;; k" := (bind c (fun _ => k))
  (at level 100, k at level 200, right associativity) : proc_scope.
Open Scope proc_scope.

Definition world_of {A : Type} (o : outcome A) : World :=
  match o with Returned _ w => w | Exited _ w => w end.

Definition returned {A : Type} (o : outcome A) : bool :=
  match o with Returned _ _ => true | Exited _ _ => false end.

(** The events submitted to [write] so far, accepted or not. *)
Definition events_of (w : World) : list input_event := map fst (uinput w).

(** The exit status a parent observes: the low eight bits of the argument
    of [exit]. *)
Definition exit_status (status : Z) : Z := Z.land status 255.

(** The uinput descriptor as the process sees it: given the writes made so
    far and the event being written, the value [write] returns. *)
Definition channel : Type := list (input_event * Z) -> input_event -> Z.

(** A descriptor on which every write succeeds (24 is
    [sizeof(struct input_event)] on a 64-bit target). *)
Definition always_ok : channel := fun _ _ => 24.

Definition fprintf (fmt : string) : proc unit :=
  fun w => Returned tt
    {| uinput := uinput w; stderr := stderr w ++ [Fprintf fmt] |}.

Definition fprintf_errno (fmt : string) : proc unit :=
  fun w => Returned tt
    {| uinput := uinput w; stderr := stderr w ++ [FprintfErrno fmt] |}.

Definition exit {A : Type} (status : Z) : proc A := fun w => Exited status w.

Section Handlers.

Variable uinput_fd : channel.

(** [write(uinput_fd, &ev, sizeof(ev))] *)
Definition write (ev : input_event) : proc Z :=
  fun w =>
    let n := uinput_fd (uinput w) ev in
    Returned n {| uinput := uinput w ++ [(ev, n)]; stderr := stderr w |}.

Definition HandleThrottlePos (msg : usbcan_msg) : proc unit :=
  if can_dlc (frame msg) =? 7 then
    let value := data_at msg 6 in
    let throttle_event :=
      {| type := EV_ABS; code := ABS_GAS; value := to_int32 value |} in
    call n <- write throttle_event;
    if n <? 0 then
      fprintf_errno "Failed to write throttle event: %d (%s)"%string ;;
      exit (-1)
    else ret tt
  else
    fprintf "Malformed accelerator position"%string.

Definition HandleBrakePos (msg : usbcan_msg) : proc unit :=
  if can_dlc (frame msg) =? 6 then
    let value := data_at msg 1 in
    let brake_event :=
      {| type := EV_ABS; code := ABS_BRAKE; value := to_int32 value |} in
    call n <- write brake_event;
    if n <? 0 then
      fprintf_errno "Failed to write brake event: %d (%s)"%string ;;
      exit (-1)
    else ret tt
  else
    fprintf "Malformed brake position"%string.

Definition HandleSteeringPos (msg : usbcan_msg) : proc unit :=
  if can_dlc (frame msg) =? 8 then
    let value :=
      to_int16 (Z.lor (Z.shiftl (to_uint16 (data_at msg 1)) 8)
                      (data_at msg 2)) in
    let wheel_event :=
      {| type := EV_ABS; code := ABS_WHEEL; value := to_int32 (- value) |} in
    call n <- write wheel_event;
    if n <? 0 then
      fprintf_errno "Failed to write wheel event: %d (%s)"%string ;;
      exit (-1)
    else ret tt
  else
    fprintf "Malformed steering position"%string.

Definition HandlePaddleShifter (msg : usbcan_msg) : proc unit :=
  if can_dlc (frame msg) =? 3 then
    let up_pressed := to_bool (Z.land (data_at msg 1) 0x01) in
    let down_pressed := to_bool (Z.land (data_at msg 1) 0x02) in
    let gear_event :=
      {| type := EV_KEY; code := BTN_GEAR_UP;
         value := to_int32 (Z.b2z up_pressed) |} in
    call n <- write gear_event;
    (if n <? 0 then
       fprintf_errno "Failed to write gear up event: %d (%s)"%string ;;
       exit (-1)
     else ret tt) ;;
    let gear_event :=
      {| type := type gear_event; code := BTN_GEAR_DOWN;
         value := to_int32 (Z.b2z down_pressed) |} in
    call n <- write gear_event;
    if n <? 0 then
      fprintf_errno "Failed to write gear down event: %d (%s)"%string ;;
      exit (-1)
    else ret tt
  else
    fprintf "Malformed steering position"%string.

(** The [switch] on the identifier; returns whether the message was
    handled. *)
Definition HandleCanMessage (msg : usbcan_msg) : proc bool :=
  let id := can_id (frame msg) in
  if id =? kThrottleId then HandleThrottlePos msg ;; ret true
  else if id =? kBrakeId then HandleBrakePos msg ;; ret true
  else if id =? kSteeringId then HandleSteeringPos msg ;; ret true
  else if id =? kPaddleShifterId then HandlePaddleShifter msg ;; ret true
  else ret false.

(** The [for] loop of [CanPacketCallback]:
    [handled |= HandleCanMessage(&msgs[i], uinput_fd)]. *)
Fixpoint CanPacketCallback_loop (msgs : list usbcan_msg) (handled : bool)
  : proc bool :=
  match msgs with
  | [] => ret handled
  | msg :: rest =>
      call h <- HandleCanMessage msg;
      CanPacketCallback_loop rest (handled || h)
  end.

Definition sync_event : input_event :=
  {| type := EV_SYN; code := SYN_REPORT; value := 0 |}.

Definition CanPacketCallback (msgs : list usbcan_msg) : proc unit :=
  call handled <- CanPacketCallback_loop msgs false;
  if handled then
    call n <- write sync_event;
    if n <? 0 then fprintf_errno "Failed to write sync event: %d (%s)"%string
    else ret tt
  else ret tt.

End Handlers.

(** ** The axis ranges of the device descriptor *)

(** The four per-axis arrays of [struct uinput_user_dev], indexed by axis
    code. *)
Record uinput_user_dev : Type := mk_uinput_user_dev
  { absmax : ev_code -> Z; absmin : ev_code -> Z;
    absfuzz : ev_code -> Z; absflat : ev_code -> Z }.

Definition ev_code_eqb (a b : ev_code) : bool :=
  match a, b with
  | SYN_REPORT, SYN_REPORT | ABS_WHEEL, ABS_WHEEL | ABS_GAS, ABS_GAS
  | ABS_BRAKE, ABS_BRAKE | BTN_GEAR_UP, BTN_GEAR_UP
  | BTN_GEAR_DOWN, BTN_GEAR_DOWN => true
  | _, _ => false
  end.

Definition arr_set (a : ev_code -> Z) (i : ev_code) (v : Z) : ev_code -> Z :=
  fun j => if ev_code_eqb j i then v else a j.

(** The descriptor [InitUinputDevice] fills in before writing it: zeroed,
    then the three axes assigned in source order. *)
Definition uidev : uinput_user_dev :=
  let zero := fun _ : ev_code => 0 in
  let amax := arr_set zero ABS_WHEEL kSteeringLimit in
  let amin := arr_set zero ABS_WHEEL (- kSteeringLimit) in
  let afuzz := arr_set zero ABS_WHEEL 0 in
  let aflat := arr_set zero ABS_WHEEL 0 in
  let amax := arr_set amax ABS_GAS kThrottleLimit in
  let amin := arr_set amin ABS_GAS 0 in
  let afuzz := arr_set afuzz ABS_GAS 0 in
  let aflat := arr_set aflat ABS_GAS 0 in
  let amax := arr_set amax ABS_BRAKE kBrakeLimit in
  let amin := arr_set amin ABS_BRAKE 0 in
  let afuzz := arr_set afuzz ABS_BRAKE 0 in
  let aflat := arr_set aflat ABS_BRAKE 0 in
  {| absmax := amax; absmin := amin; absfuzz := afuzz; absflat := aflat |}.

(** An event's value respects the range the descriptor declares for its
    code. *)
Definition in_declared_range (ev : input_event) : Prop :=
  absmin uidev (code ev) <= value ev <= absmax uidev (code ev).

(** ** Reference descriptions used in the statements *)

(** The big-endian signed 16-bit integer held in two bytes: the unsigned
    value [256 * hi + lo], read in two's complement. *)
Definition be_int16 (hi lo : Z) : Z :=
  let u := 256 * hi + lo in
  if u <? 32768 then u else u - 65536.

(** The four identifiers of the decode table and the length each one
    declares. *)
Definition declared_length (id : Z) : option Z :=
  if id =? 0x01a1 then Some 7
  else if id =? 0x00f1 then Some 6
  else if id =? 0x01e5 then Some 8
  else if id =? 0x01f3 then Some 3
  else None.

Definition recognized (msg : usbcan_msg) : bool :=
  existsb (Z.eqb (can_id (frame msg))) [0x01a1; 0x00f1; 0x01e5; 0x01f3].

(** The decode table, row by row: the events a frame of a recognized
    identifier and of the declared length stands for. *)
Definition table_events (msg : usbcan_msg) : option (list input_event) :=
  let id := can_id (frame msg) in
  let len := can_dlc (frame msg) in
  if (id =? 0x01a1) && (len =? 7) then
    Some [mk_input_event EV_ABS ABS_GAS (data_at msg 6)]
  else if (id =? 0x00f1) && (len =? 6) then
    Some [mk_input_event EV_ABS ABS_BRAKE (data_at msg 1)]
  else if (id =? 0x01e5) && (len =? 8) then
    Some [mk_input_event EV_ABS ABS_WHEEL
            (- be_int16 (data_at msg 1) (data_at msg 2))]
  else if (id =? 0x01f3) && (len =? 3) then
    Some [mk_input_event EV_KEY BTN_GEAR_UP
            (Z.b2z (Z.testbit (data_at msg 1) 0));
          mk_input_event EV_KEY BTN_GEAR_DOWN
            (Z.b2z (Z.testbit (data_at msg 1) 1))]
  else None.

(** The two pedal frames: the axis each reports and the offset of the
    byte that carries it. *)
Definition pedal_frame (msg : usbcan_msg) : option (ev_code * nat) :=
  let id := can_id (frame msg) in
  let len := can_dlc (frame msg) in
  if (id =? 0x01a1) && (len =? 7) then Some (ABS_GAS, 6%nat)
  else if (id =? 0x00f1) && (len =? 6) then Some (ABS_BRAKE, 1%nat)
  else None.

(** A well-formed steering frame, and the raw value it carries. *)
Definition steering_frame (msg : usbcan_msg) : bool :=
  (can_id (frame msg) =? 0x01e5) && (can_dlc (frame msg) =? 8).

Definition steering_raw (msg : usbcan_msg) : Z :=
  be_int16 (data_at msg 1) (data_at msg 2).

(** A malformed-frame diagnostic: a plain stderr line that starts with
    the word Malformed. *)
Definition is_malformed_diag (l : stderr_line) : bool :=
  match l with
  | Fprintf fmt => String.prefix "Malformed" fmt
  | FprintfErrno _ => false
  end.

Definition is_sync (ev : input_event) : bool := ev_type_eqb (type ev) EV_SYN.

Definition sync_count (evs : list input_event) : nat :=
  List.length (filter is_sync evs).

(** ** What a call leaves behind

    The handlers are read once more as data: the events each builds, in the
    order it writes them, the line it prints for a frame it rejects, and
    whether the [switch] has a case for the identifier. The run lemmas below
    tie the monadic code to these. *)

Definition frame_events (msg : usbcan_msg) : list input_event :=
  let id := can_id (frame msg) in
  let dlc := can_dlc (frame msg) in
  if id =? kThrottleId then
    if dlc =? 7 then
      [{| type := EV_ABS; code := ABS_GAS;
          value := to_int32 (data_at msg 6) |}]
    else []
  else if id =? kBrakeId then
    if dlc =? 6 then
      [{| type := EV_ABS; code := ABS_BRAKE;
          value := to_int32 (data_at msg 1) |}]
    else []
  else if id =? kSteeringId then
    if dlc =? 8 then
      [{| type := EV_ABS; code := ABS_WHEEL;
          value := to_int32 (- to_int16 (Z.lor
                     (Z.shiftl (to_uint16 (data_at msg 1)) 8)
                     (data_at msg 2))) |}]
    else []
  else if id =? kPaddleShifterId then
    if dlc =? 3 then
      [{| type := EV_KEY; code := BTN_GEAR_UP;
          value := to_int32 (Z.b2z (to_bool (Z.land (data_at msg 1) 0x01))) |};
       {| type := EV_KEY; code := BTN_GEAR_DOWN;
          value := to_int32 (Z.b2z (to_bool (Z.land (data_at msg 1) 0x02))) |}]
    else []
  else [].

Definition frame_diag (msg : usbcan_msg) : list stderr_line :=
  let id := can_id (frame msg) in
  let dlc := can_dlc (frame msg) in
  if id =? kThrottleId then
    if dlc =? 7 then [] else [Fprintf "Malformed accelerator position"]
  else if id =? kBrakeId then
    if dlc =? 6 then [] else [Fprintf "Malformed brake position"]
  else if id =? kSteeringId then
    if dlc =? 8 then [] else [Fprintf "Malformed steering position"]
  else if id =? kPaddleShifterId then
    if dlc =? 3 then [] else [Fprintf "Malformed steering position"]
  else [].

Definition frame_handled (msg : usbcan_msg) : bool :=
  let id := can_id (frame msg) in
  (id =? kThrottleId) || (id =? kBrakeId) || (id =? kSteeringId)
  || (id =? kPaddleShifterId).

(** The line [CanPacketCallback] prints when the sync write is rejected. *)
Definition sync_failed : stderr_line :=
  FprintfErrno "Failed to write sync event: %d (%s)".

(** A recorded write the descriptor accepted. *)
Definition accepted (p : input_event * Z) : Prop := 0 <= snd p.

(** A trace of writes in which every axis and button write was accepted;
    nothing is asked of the sync marker. *)
Definition data_accepted (tr : list (input_event * Z)) : Prop :=
  Forall (fun p => is_sync (fst p) = false -> 0 <= snd p) tr.

(** A call that ended the process did so on a rejected write of one of the
    frame's events, with status -1 and nothing written after it. *)
Definition died_on (uinput_fd : channel) (evs : list input_event)
  (w : World) (status : Z) (w' : World) : Prop :=
  status = -1 /\
  exists pre ev r suf,
    uinput w' = uinput w ++ pre ++ [(ev, r)] /\ r < 0 /\
    r = uinput_fd (uinput w ++ pre) ev /\
    Forall accepted pre /\ evs = map fst pre ++ ev :: suf.

(** A call that returned wrote all the events, each accepted. *)
Definition wrote_all (evs : list input_event) (w w' : World) : Prop :=
  exists tr,
    uinput w' = uinput w ++ tr /\ map fst tr = evs /\ Forall accepted tr.

(** ** Sample frames and descriptors

    Concrete inputs on which the statements below are exercised. Payloads
    list all eight bytes of the buffer. *)

Definition world0 : World := {| uinput := []; stderr := [] |}.

Definition mk_msg (id dlc : Z) (payload : list Z) : usbcan_msg :=
  mk_usbcan_msg (mk_can_frame id dlc payload).

Definition throttle_half : usbcan_msg :=
  mk_msg 0x01a1 7 [0; 0; 0; 0; 0; 0; 0x80; 0].
Definition throttle_full : usbcan_msg :=
  mk_msg 0x01a1 7 [0; 0; 0; 0; 0; 0; 0xff; 0].
Definition throttle_short : usbcan_msg :=
  mk_msg 0x01a1 5 [0; 0; 0; 0; 0; 0; 0; 0].
Definition brake_soft : usbcan_msg :=
  mk_msg 0x00f1 6 [0; 0x20; 0; 0; 0; 0; 0; 0].
Definition brake_full : usbcan_msg :=
  mk_msg 0x00f1 6 [0; 0xff; 0; 0; 0; 0; 0; 0].
Definition steering_plus256 : usbcan_msg :=
  mk_msg 0x01e5 8 [0; 0x01; 0x00; 0; 0; 0; 0; 0].
Definition steering_minus256 : usbcan_msg :=
  mk_msg 0x01e5 8 [0; 0xff; 0x00; 0; 0; 0; 0; 0].
Definition steering_max : usbcan_msg :=
  mk_msg 0x01e5 8 [0; 0x7f; 0xff; 0; 0; 0; 0; 0].
Definition paddles_both : usbcan_msg :=
  mk_msg 0x01f3 3 [0; 0x03; 0; 0; 0; 0; 0; 0].
Definition paddles_none : usbcan_msg :=
  mk_msg 0x01f3 3 [0; 0; 0; 0; 0; 0; 0; 0].
Definition unknown_frame : usbcan_msg :=
  mk_msg 0x9999 8 [1; 2; 3; 4; 5; 6; 7; 8].

(** A world in which an earlier batch has already been written, and the
    events of the batch [throttle_half; brake_soft]. *)
Definition world_used : World :=
  {| uinput := [(mk_input_event EV_ABS ABS_WHEEL 7, 24);
                ({| type := EV_SYN; code := SYN_REPORT; value := 0 |}, -1)];
     stderr := [FprintfErrno "Failed to write sync event: %d (%s)"] |}.

Definition pedals_then_sync : list input_event :=
  [mk_input_event EV_ABS ABS_GAS 128; mk_input_event EV_ABS ABS_BRAKE 32;
   {| type := EV_SYN; code := SYN_REPORT; value := 0 |}].

(** A descriptor that rejects every write, and one that rejects only the
    sync marker. *)
Definition reject_all : channel := fun _ _ => -1.
Definition reject_sync : channel :=
  fun _ ev => if is_sync ev then -1 else 24.

(** ** Start-up: [InitUinputDevice] and [main]

    Start-up talks to the kernel and to the usbcan library. Every call is
    recorded, in order, with the value it returned; the value comes from
    the environment, which sees the calls made so far. *)

(** The uinput requests [main.cc] issues through [ioctl], with their
    argument. *)
Inductive uinput_ioctl : Type :=
  | UI_SET_EVBIT (t : ev_type)
  | UI_SET_ABSBIT (c : ev_code)
  | UI_SET_KEYBIT (c : ev_code)
  | UI_DEV_CREATE.

Inductive bus : Type := BUS_VIRTUAL.

(** [struct input_id] *)
Record input_id : Type := mk_input_id
  { bustype : bus; vendor : Z; product : Z; version : Z }.

(** What [InitUinputDevice] writes to the descriptor: the name and identity
    fields of [struct uinput_user_dev] and its four per-axis arrays
    ([uidev] above). The force-feedback field stays zero and is left
    out. *)
Record uidev_image : Type := mk_uidev_image
  { uidev_name : string; uidev_id : input_id; uidev_abs : uinput_user_dev }.

Inductive open_flag : Type := O_WRONLY | O_NONBLOCK.

Inductive can_speed : Type := CAN_SPEED_500KBPS.

(** [struct usbcan_bus_config] as [main] fills it: [filters] is a null
    pointer ([None]); [arg] points at the descriptor number, which is what
    the field holds here. The callback field is always
    [CanPacketCallback]. *)
Record usbcan_bus_config : Type := mk_usbcan_bus_config
  { speed : can_speed; filters : option Z; num_filters : Z; arg : Z }.

Inductive syscall : Type :=
  | c_open (path : string) (flags : list open_flag)
  | c_ioctl (fd : Z) (req : uinput_ioctl)
  | c_write (fd : Z) (image : uidev_image)
  | c_usbcan_library_init
  | c_usbcan_init (device_id bus_id : Z) (config : usbcan_bus_config)
  | c_usbcan_start (device_id bus_id : Z)
  | c_pause
  | c_usbcan_library_close.

(** The calls made so far with their results, and the lines printed to
    stderr during start-up. *)
Record Boot : Type := mk_Boot
  { calls : list (syscall * Z); console : list stderr_line }.

Definition kernel : Type := list (syscall * Z) -> syscall -> Z.

Definition say (l : stderr_line) (b : Boot) : Boot :=
  {| calls := calls b; console := console b ++ [l] |}.

Section Startup.

Variable env : kernel.

Definition sys (c : syscall) (b : Boot) : Z * Boot :=
  let r := env (calls b) c in
  (r, {| calls := calls b ++ [(c, r)]; console := console b |}).

Definition InitUinputDevice (uinput_fd : Z) (b : Boot) : bool * Boot :=
  let '(r, b) := sys (c_ioctl uinput_fd (UI_SET_EVBIT EV_ABS)) b in
  if r <? 0 then
    (false, say (FprintfErrno "Failed to set abs attribute: %d (%s)") b)
  else
  let '(r, b) := sys (c_ioctl uinput_fd (UI_SET_ABSBIT ABS_WHEEL)) b in
  if r <? 0 then
    (false, say (FprintfErrno "Failed to set wheel attribute: %d (%s)") b)
  else
  let '(r, b) := sys (c_ioctl uinput_fd (UI_SET_ABSBIT ABS_GAS)) b in
  if r <? 0 then
    (false, say (FprintfErrno "Failed to set gas attribute: %d (%s)") b)
  else
  let '(r, b) := sys (c_ioctl uinput_fd (UI_SET_ABSBIT ABS_BRAKE)) b in
  if r <? 0 then
    (false, say (FprintfErrno "Failed to set brake attribute: %d (%s)") b)
  else
  let '(r, b) := sys (c_ioctl uinput_fd (UI_SET_EVBIT EV_KEY)) b in
  if r <? 0 then
    (false, say (FprintfErrno "Failed to set key attribute: %d (%s)") b)
  else
  let '(r, b) := sys (c_ioctl uinput_fd (UI_SET_KEYBIT BTN_GEAR_UP)) b in
  if r <? 0 then
    (false, say (FprintfErrno "Failed to set gear up attribute: %d (%s)") b)
  else
  let '(r, b) := sys (c_ioctl uinput_fd (UI_SET_KEYBIT BTN_GEAR_DOWN)) b in
  if r <? 0 then
    (false,
     say (FprintfErrno "Failed to set gear down attribute: %d (%s)") b)
  else
  let image :=
    {| uidev_name := "Cadillac ELR";
       uidev_id := {| bustype := BUS_VIRTUAL; vendor := 1; product := 1;
                      version := 1 |};
       uidev_abs := uidev |} in
  let '(r, b) := sys (c_write uinput_fd image) b in
  if r <? 0 then
    (false,
     say (FprintfErrno "Failed to write uinput descriptor: %d (%s)") b)
  else
  let '(r, b) := sys (c_ioctl uinput_fd UI_DEV_CREATE) b in
  if r <? 0 then
    (false,
     say (FprintfErrno "Failed to create uinput device: %d (%s)") b)
  else (true, b).

(** [main]; the pair is its return value and the state it leaves. The
    results of [pause] and [usbcan_library_close] are not looked at. *)
Definition main (b : Boot) : Z * Boot :=
  let b := say (Fprintf "can-joystick") b in
  let '(uinput_fd, b) := sys (c_open "/dev/uinput" [O_WRONLY; O_NONBLOCK]) b in
  if uinput_fd <? 0 then
    (-1, say (FprintfErrno "Failed to open uinput: %d (%s)") b)
  else
  let '(ok, b) := InitUinputDevice uinput_fd b in
  if negb ok then (-1, b)
  else
  let '(r, b) := sys c_usbcan_library_init b in
  let success := to_bool r in
  if negb success then (-1, say (Fprintf "Failed to init usbcan") b)
  else
  let config :=
    {| speed := CAN_SPEED_500KBPS; filters := None; num_filters := 0;
       arg := uinput_fd |} in
  let '(r, b) := sys (c_usbcan_init 0 0 config) b in
  let success := to_bool r in
  if negb success then
    (-1, say (Fprintf "Failed to init listener on bus 0") b)
  else
  let '(r, b) := sys (c_usbcan_start 0 0) b in
  let success := to_bool r in
  if negb success then
    (-1, say (Fprintf "Failed to start listening on bus 0") b)
  else
  let '(_, b) := sys c_pause b in
  let '(_, b) := sys c_usbcan_library_close b in
  (0, b).

End Startup.

(** The calls of [InitUinputDevice] and of [main], in source order, and the
    test each result is put to. *)
Definition written_image : uidev_image :=
  {| uidev_name := "Cadillac ELR";
     uidev_id := {| bustype := BUS_VIRTUAL; vendor := 1; product := 1;
                    version := 1 |};
     uidev_abs := uidev |}.

Definition init_requests (fd : Z) : list syscall :=
  [c_ioctl fd (UI_SET_EVBIT EV_ABS);
   c_ioctl fd (UI_SET_ABSBIT ABS_WHEEL);
   c_ioctl fd (UI_SET_ABSBIT ABS_GAS);
   c_ioctl fd (UI_SET_ABSBIT ABS_BRAKE);
   c_ioctl fd (UI_SET_EVBIT EV_KEY);
   c_ioctl fd (UI_SET_KEYBIT BTN_GEAR_UP);
   c_ioctl fd (UI_SET_KEYBIT BTN_GEAR_DOWN);
   c_write fd written_image;
   c_ioctl fd UI_DEV_CREATE].

Definition main_requests (fd : Z) : list syscall :=
  c_open "/dev/uinput" [O_WRONLY; O_NONBLOCK]
  :: init_requests fd
  ++ [c_usbcan_library_init;
      c_usbcan_init 0 0
        {| speed := CAN_SPEED_500KBPS; filters := None; num_filters := 0;
           arg := fd |};
      c_usbcan_start 0 0;
      c_pause;
      c_usbcan_library_close].

Definition call_ok (p : syscall * Z) : bool :=
  match fst p with
  | c_open _ _ | c_ioctl _ _ | c_write _ _ => 0 <=? snd p
  | c_usbcan_library_init | c_usbcan_init _ _ _ | c_usbcan_start _ _ =>
      negb (snd p =? 0)
  | c_pause | c_usbcan_library_close => true
  end.

(** A succeeded request in a trace of calls. *)
Definition enabled (tr : list (syscall * Z)) (fd : Z) (req : uinput_ioctl)
  : Prop :=
  exists r, In (c_ioctl fd req, r) tr /\ 0 <= r.

(** An event the device was set up for: its type and its code were both
    enabled. *)
Definition set_up_for (tr : list (syscall * Z)) (fd : Z) (ev : input_event)
  : Prop :=
  match type ev with
  | EV_ABS =>
      enabled tr fd (UI_SET_EVBIT EV_ABS)
      /\ enabled tr fd (UI_SET_ABSBIT (code ev))
  | EV_KEY =>
      enabled tr fd (UI_SET_EVBIT EV_KEY)
      /\ enabled tr fd (UI_SET_KEYBIT (code ev))
  | EV_SYN => False
  end.

(** ** Further reference descriptions *)

(** A frame with a recognized identifier and a length other than the
    declared one. *)
Definition malformed (msg : usbcan_msg) : bool :=
  match declared_length (can_id (frame msg)) with
  | Some len => negb (can_dlc (frame msg) =? len)
  | None => false
  end.

(** The payload offsets each handler indexes. *)
Definition bytes_read (id : Z) : list nat :=
  if id =? kThrottleId then [6%nat]
  else if id =? kBrakeId then [1%nat]
  else if id =? kSteeringId then [1%nat; 2%nat]
  else if id =? kPaddleShifterId then [1%nat]
  else [].

Definition is_data (ev : input_event) : bool := negb (is_sync ev).

(** A line reporting a rejected write of an event. *)
Definition write_failure (l : stderr_line) : bool :=
  match l with
  | FprintfErrno fmt => String.prefix "Failed to write" fmt
  | Fprintf _ => false
  end.

(** The frame [steering_plus256] with every byte the handler does not
    read changed. *)
Definition steering_noise : usbcan_msg :=
  mk_msg 0x01e5 8 [0xaa; 0x01; 0x00; 0xbb; 0xcc; 0xdd; 0xee; 0xff].

(** [paddles_both] with other bytes beyond its length of 3, and with the
    upper six bits of byte 1 set. *)
Definition paddles_stale : usbcan_msg :=
  mk_msg 0x01f3 3 [0; 0x03; 0; 0x11; 0x22; 0x33; 0x44; 0x55].
Definition paddles_high_bits : usbcan_msg :=
  mk_msg 0x01f3 3 [0; 0xff; 0; 0; 0; 0; 0; 0].

(** The state after a batch with one malformed frame and a paddle frame,
    on a descriptor that rejects the sync marker. *)
Definition world_sync_rejected : World :=
  {| uinput := [(mk_input_event EV_KEY BTN_GEAR_UP 0, 24);
                (mk_input_event EV_KEY BTN_GEAR_DOWN 0, 24);
                ({| type := EV_SYN; code := SYN_REPORT; value := 0 |}, -1)];
     stderr := [Fprintf "Malformed accelerator position";
                FprintfErrno "Failed to write sync event: %d (%s)"] |}.

(** The state in which a rejected brake write leaves the process, after a
    malformed throttle frame. *)
Definition world_brake_rejected : World :=
  {| uinput := [(mk_input_event EV_ABS ABS_BRAKE 32, -1)];
     stderr := [Fprintf "Malformed accelerator position";
                FprintfErrno "Failed to write brake event: %d (%s)"] |}.

(** A start-up failure report: a line that starts with Failed to. *)
Definition startup_failure (l : stderr_line) : bool :=
  match l with
  | Fprintf fmt | FprintfErrno fmt => String.prefix "Failed to " fmt
  end.

(** Sample environments for start-up. *)
Definition boot0 : Boot := {| calls := []; console := [] |}.

(** Every call succeeds; [open] returns descriptor 3. *)
Definition kernel_ok : kernel :=
  fun _ c => match c with c_open _ _ => 3 | _ => 1 end.

(** Every call succeeds except the descriptor write. *)
Definition kernel_no_write : kernel :=
  fun _ c =>
    match c with c_open _ _ => 3 | c_write _ _ => -1 | _ => 1 end.

(** Every call succeeds except [usbcan_init]. *)
Definition kernel_no_bus : kernel :=
  fun _ c =>
    match c with c_open _ _ => 3 | c_usbcan_init _ _ _ => 0 | _ => 1 end.

(** The states the sample environments lead to. *)
Definition boot_init_ok : Boot :=
  Eval vm_compute in snd (InitUinputDevice kernel_ok 3 boot0).
Definition boot_init_no_write : Boot :=
  Eval vm_compute in snd (InitUinputDevice kernel_no_write 3 boot0).
Definition boot_main_ok : Boot :=
  Eval vm_compute in snd (main kernel_ok boot0).
Definition boot_main_no_bus : Boot :=
  Eval vm_compute in snd (main kernel_no_bus boot0).

(** ** Arithmetic of the conversions *)

Lemma to_int32_id (x : Z) :
  -2147483648 <= x < 2147483648 -> to_int32 x = x.
Proof.
  intros H. unfold to_int32.
  rewrite Z.mod_small by lia. lia.
Qed.

Lemma to_uint16_id (x : Z) : 0 <= x < 65536 -> to_uint16 x = x.
Proof. intros H. unfold to_uint16. now rewrite Z.mod_small. Qed.

Lemma is_byte_spec (b : Z) : is_byte b = true <-> 0 <= b < 256.
Proof. unfold is_byte. rewrite andb_true_iff. lia. Qed.

Lemma nth_bytes (l : list Z) (i : nat) :
  forallb is_byte l = true -> 0 <= nth i l 0 < 256.
Proof.
  revert i. induction l as [|b l IH]; intros i H.
  - destruct i; simpl; lia.
  - simpl in H. apply andb_true_iff in H as [Hb Hl].
    destruct i as [|i]; simpl.
    + now apply is_byte_spec.
    + now apply IH.
Qed.

Lemma wf_msg_byte (msg : usbcan_msg) (i : nat) :
  wf_msg msg -> 0 <= data_at msg i < 256.
Proof.
  unfold wf_msg, wf_msgb, data_at. intros H.
  apply andb_true_iff in H as [_ H]. now apply nth_bytes.
Qed.

(** Or-ing a byte into the low bits of a value shifted left by eight adds
    it. *)
Lemma lor_shiftl8 (hi lo : Z) :
  0 <= lo < 256 -> Z.lor (Z.shiftl hi 8) lo = 256 * hi + lo.
Proof.
  intros Hlo.
  assert (Hland : Z.land (Z.shiftl hi 8) lo = 0).
  { apply Z.bits_inj'. intros n Hn.
    rewrite Z.land_spec, Z.bits_0.
    destruct (Z.ltb_spec n 8) as [Hlt|Hge].
    - rewrite Z.shiftl_spec_low by assumption. reflexivity.
    - replace (Z.testbit lo n) with false; [apply andb_false_r|].
      symmetry. destruct (Z.eq_dec lo 0) as [->|Hnz].
      + apply Z.bits_0.
      + apply Z.bits_above_log2; [lia|].
        assert (Z.log2 lo < 8); [|lia].
        apply Z.log2_lt_pow2; simpl; lia. }
  rewrite <- Z.lxor_lor by assumption.
  rewrite <- Z.add_nocarry_lxor by assumption.
  rewrite Z.shiftl_mul_pow2 by lia. change (2 ^ 8) with 256. lia.
Qed.

Lemma steering_raw_be (hi lo : Z) :
  0 <= hi < 256 -> 0 <= lo < 256 ->
  to_int16 (Z.lor (Z.shiftl (to_uint16 hi) 8) lo) = be_int16 hi lo.
Proof.
  intros Hhi Hlo.
  rewrite to_uint16_id by lia. rewrite lor_shiftl8 by assumption.
  unfold to_int16, be_int16. cbv zeta.
  destruct (Z.ltb_spec (256 * hi + lo) 32768) as [Hs|Hb].
  - rewrite Z.mod_small by lia. lia.
  - replace (256 * hi + lo + 32768)
      with ((256 * hi + lo - 32768) + 1 * 65536) by lia.
    rewrite Z.mod_add by lia. rewrite Z.mod_small by lia. lia.
Qed.

Lemma be_int16_range (hi lo : Z) :
  0 <= hi < 256 -> 0 <= lo < 256 -> -32768 <= be_int16 hi lo <= 32767.
Proof.
  intros Hhi Hlo. unfold be_int16. cbv zeta.
  destruct (Z.ltb_spec (256 * hi + lo) 32768); lia.
Qed.

(** Masking with a single bit and converting to [bool] reads that bit. *)
Lemma land_bit (d k : Z) :
  0 <= k -> to_bool (Z.land d (2 ^ k)) = Z.testbit d k.
Proof.
  intros Hk. unfold to_bool.
  destruct (Z.testbit d k) eqn:Hb.
  - apply negb_true_iff, Z.eqb_neq. intros H0.
    assert (Ht : Z.testbit (Z.land d (2 ^ k)) k = true).
    { rewrite Z.land_spec, Hb, Z.pow2_bits_true by assumption. reflexivity. }
    rewrite H0, Z.bits_0 in Ht. discriminate.
  - apply negb_false_iff, Z.eqb_eq. apply Z.bits_inj'. intros n Hn.
    rewrite Z.land_spec, Z.bits_0, Z.pow2_bits_eqb by assumption.
    destruct (Z.eqb_spec k n) as [->|Hne].
    + rewrite Hb. reflexivity.
    + apply andb_false_r.
Qed.

Lemma up_pressed_bit (d : Z) :
  to_int32 (Z.b2z (to_bool (Z.land d 0x01))) = Z.b2z (Z.testbit d 0).
Proof.
  change 0x01 with (2 ^ 0). rewrite land_bit by lia.
  apply to_int32_id. destruct (Z.testbit d 0); simpl; lia.
Qed.

Lemma down_pressed_bit (d : Z) :
  to_int32 (Z.b2z (to_bool (Z.land d 0x02))) = Z.b2z (Z.testbit d 1).
Proof.
  change 0x02 with (2 ^ 1). rewrite land_bit by lia.
  apply to_int32_id. destruct (Z.testbit d 1); simpl; lia.
Qed.

(** ** Running the handlers *)

Section Runs.

Variable uinput_fd : channel.

Lemma HandleCanMessage_run (msg : usbcan_msg) (w : World) :
  match HandleCanMessage uinput_fd msg w with
  | Returned h w' =>
      h = frame_handled msg /\ wrote_all (frame_events msg) w w' /\
      stderr w' = stderr w ++ frame_diag msg
  | Exited status w' => died_on uinput_fd (frame_events msg) w status w'
  end.
Proof.
  unfold HandleCanMessage, frame_handled, frame_events, frame_diag.
  unfold HandleThrottlePos, HandleBrakePos, HandleSteeringPos,
    HandlePaddleShifter.
  cbv zeta.
  repeat match goal with
  | |- context [can_id (frame msg) =? ?k] =>
      destruct (can_id (frame msg) =? k); cbn [orb]
  | |- context [can_dlc (frame msg) =? ?k] =>
      destruct (can_dlc (frame msg) =? k)
  end;
  unfold bind, write, fprintf, fprintf_errno, exit, ret; cbn;
  repeat match goal with
  | |- context [uinput_fd ?h ?e <? 0] =>
      destruct (Z.ltb_spec (uinput_fd h e) 0); cbn
  end.
  all: lazymatch goal with
       | |- died_on _ _ _ _ _ => split; [reflexivity|]
       | |- _ /\ _ /\ _ =>
           split; [reflexivity|split; [|cbn; now rewrite ?app_nil_r]]
       end.
  all: lazymatch goal with
       | |- wrote_all _ _ _ =>
           first
             [ exists []; cbn; rewrite app_nil_r; now repeat split
             | eexists [(_, _)]; cbn; repeat split;
               repeat constructor; unfold accepted; cbn; lia
             | eexists [(_, _); (_, _)]; cbn; rewrite <- app_assoc;
               repeat split; repeat constructor; unfold accepted; cbn; lia ]
       | |- _ =>
           first
             [ eexists [], _, _, _; cbn [app];
               split; [reflexivity|]; split; [assumption|];
               split; [now rewrite app_nil_r|];
               split; [constructor|reflexivity]
             | eexists [(_, _)], _, _, _; cbn [app];
               split; [rewrite <- app_assoc; reflexivity|];
               split; [assumption|]; split; [reflexivity|];
               split; [|reflexivity];
               repeat constructor; unfold accepted; cbn; lia ]
       end.
Qed.

Lemma wrote_all_app (e1 e2 : list input_event) (w w1 w2 : World) :
  wrote_all e1 w w1 -> wrote_all e2 w1 w2 -> wrote_all (e1 ++ e2) w w2.
Proof.
  intros (t1 & Hu1 & Hm1 & Ha1) (t2 & Hu2 & Hm2 & Ha2).
  exists (t1 ++ t2). repeat split.
  - now rewrite Hu2, Hu1, app_assoc.
  - now rewrite map_app, Hm1, Hm2.
  - apply Forall_app; now split.
Qed.

Lemma died_on_later (e1 e2 : list input_event) (w w1 w2 : World) (st : Z) :
  wrote_all e1 w w1 -> died_on uinput_fd e2 w1 st w2 ->
  died_on uinput_fd (e1 ++ e2) w st w2.
Proof.
  intros (t1 & Hu1 & Hm1 & Ha1)
         (Hst & pre & ev & r & suf & Hu & Hr & Hc & Hp & He).
  split; [assumption|].
  exists (t1 ++ pre), ev, r, suf. repeat split.
  - now rewrite Hu, Hu1, !app_assoc.
  - assumption.
  - now rewrite Hc, Hu1, app_assoc.
  - apply Forall_app; now split.
  - now rewrite map_app, Hm1, He, app_assoc.
Qed.

Lemma died_on_app (e1 e2 : list input_event) (w w' : World) (st : Z) :
  died_on uinput_fd e1 w st w' -> died_on uinput_fd (e1 ++ e2) w st w'.
Proof.
  intros (Hst & pre & ev & r & suf & Hu & Hr & Hc & Hp & He).
  split; [assumption|].
  exists pre, ev, r, (suf ++ e2). repeat split; try assumption.
  now rewrite He, <- app_assoc.
Qed.

Lemma CanPacketCallback_loop_run (msgs : list usbcan_msg) :
  forall (handled : bool) (w : World),
  match CanPacketCallback_loop uinput_fd msgs handled w with
  | Returned h w' =>
      h = handled || existsb frame_handled msgs /\
      wrote_all (flat_map frame_events msgs) w w' /\
      stderr w' = stderr w ++ flat_map frame_diag msgs
  | Exited status w' =>
      died_on uinput_fd (flat_map frame_events msgs) w status w'
  end.
Proof.
  induction msgs as [|msg rest IH]; intros handled w.
  - cbn. rewrite orb_false_r, !app_nil_r. repeat split.
    exists []. rewrite app_nil_r. now repeat split.
  - cbn [CanPacketCallback_loop flat_map existsb]. unfold bind.
    pose proof (HandleCanMessage_run msg w) as Hm.
    destruct (HandleCanMessage uinput_fd msg w) as [h w1|st w1].
    + destruct Hm as (Hh & Hw & Hs).
      specialize (IH (handled || h) w1).
      destruct (CanPacketCallback_loop uinput_fd rest (handled || h) w1)
        as [h' w2|st w2].
      * destruct IH as (Hh' & Hw' & Hs'). repeat split.
        -- now rewrite Hh', Hh, orb_assoc.
        -- now apply wrote_all_app with w1.
        -- now rewrite Hs', Hs, app_assoc.
      * now apply died_on_later with w1.
    + now apply died_on_app.
Qed.

Lemma CanPacketCallback_run (msgs : list usbcan_msg) (w : World) :
  match CanPacketCallback uinput_fd msgs w with
  | Returned _ w' =>
      exists w1,
        wrote_all (flat_map frame_events msgs) w w1 /\
        stderr w1 = stderr w ++ flat_map frame_diag msgs /\
        if existsb frame_handled msgs then
          let r := uinput_fd (uinput w1) sync_event in
          uinput w' = uinput w1 ++ [(sync_event, r)] /\
          stderr w' = stderr w1 ++ (if r <? 0 then [sync_failed] else [])
        else w' = w1
  | Exited status w' =>
      died_on uinput_fd (flat_map frame_events msgs) w status w'
  end.
Proof.
  unfold CanPacketCallback, bind.
  pose proof (CanPacketCallback_loop_run msgs false w) as Hl.
  destruct (CanPacketCallback_loop uinput_fd msgs false w) as [h w1|st w1];
    [|assumption].
  destruct Hl as (Hh & Hw & Hs). cbn [orb] in Hh. subst h.
  destruct (existsb frame_handled msgs) eqn:Hany.
  - unfold write, fprintf_errno, ret. cbn.
    destruct (uinput_fd (uinput w1) sync_event <? 0) eqn:Hr; cbn.
    + exists w1. cbn. rewrite Hr. now repeat split.
    + exists w1. cbn. rewrite Hr, app_nil_r. now repeat split.
  - unfold ret. exists w1. now repeat split.
Qed.

End Runs.

(** ** The handlers' events and the decode table *)

Lemma accepted_trace_not_failed (tr : list (input_event * Z))
  (ev : input_event) (r : Z) :
  Forall accepted tr -> In (ev, r) tr -> r < 0 -> False.
Proof.
  intros Hall Hin Hr. rewrite Forall_forall in Hall.
  specialize (Hall _ Hin). unfold accepted in Hall. cbn in Hall. lia.
Qed.

Lemma frame_handled_recognized (msg : usbcan_msg) :
  frame_handled msg = recognized msg.
Proof.
  unfold frame_handled, recognized, kThrottleId, kBrakeId, kSteeringId,
    kPaddleShifterId. cbn [existsb]. now rewrite orb_false_r, !orb_assoc.
Qed.

Lemma existsb_handled_recognized (msgs : list usbcan_msg) :
  existsb frame_handled msgs = existsb recognized msgs.
Proof.
  induction msgs as [|m l IH]; cbn; [reflexivity|].
  now rewrite IH, frame_handled_recognized.
Qed.

Lemma frame_events_not_sync (msg : usbcan_msg) :
  Forall (fun ev => is_sync ev = false) (frame_events msg).
Proof.
  unfold frame_events. cbv zeta.
  repeat match goal with
  | |- context [if ?b then _ else _] => destruct b
  end; repeat constructor.
Qed.

Lemma batch_events_not_sync (msgs : list usbcan_msg) :
  Forall (fun ev => is_sync ev = false) (flat_map frame_events msgs).
Proof.
  induction msgs as [|m l IH]; cbn; [constructor|].
  apply Forall_app. split; [apply frame_events_not_sync|assumption].
Qed.

Lemma sync_count_none (evs : list input_event) :
  Forall (fun ev => is_sync ev = false) evs -> sync_count evs = 0%nat.
Proof.
  unfold sync_count. induction 1 as [|ev l Hev _ IH]; cbn; [reflexivity|].
  now rewrite Hev.
Qed.

(** On a frame of the declared length, the handlers build the table's
    events: the conversions they go through change nothing on bytes. *)
Lemma table_events_frame (msg : usbcan_msg) (evs : list input_event) :
  wf_msg msg -> table_events msg = Some evs ->
  frame_events msg = evs /\ frame_diag msg = [] /\ frame_handled msg = true.
Proof.
  intros Hwf. unfold table_events, frame_events, frame_diag, frame_handled,
    kThrottleId, kBrakeId, kSteeringId, kPaddleShifterId. cbv zeta.
  pose proof (wf_msg_byte msg 1 Hwf) as H1.
  pose proof (wf_msg_byte msg 2 Hwf) as H2.
  pose proof (wf_msg_byte msg 6 Hwf) as H6.
  destruct (Z.eqb_spec (can_id (frame msg)) 417) as [Et|_].
  { rewrite Et. cbn [Z.eqb Pos.eqb andb orb].
    destruct (can_dlc (frame msg) =? 7); [|discriminate].
    intros [= <-]. now rewrite to_int32_id by lia. }
  destruct (Z.eqb_spec (can_id (frame msg)) 241) as [Eb|_].
  { rewrite Eb. cbn [Z.eqb Pos.eqb andb orb].
    destruct (can_dlc (frame msg) =? 6); [|discriminate].
    intros [= <-]. now rewrite to_int32_id by lia. }
  destruct (Z.eqb_spec (can_id (frame msg)) 485) as [Es|_].
  { rewrite Es. cbn [Z.eqb Pos.eqb andb orb].
    destruct (can_dlc (frame msg) =? 8); [|discriminate].
    intros [= <-]. rewrite steering_raw_be by assumption.
    pose proof (be_int16_range _ _ H1 H2).
    now rewrite to_int32_id by lia. }
  destruct (Z.eqb_spec (can_id (frame msg)) 499) as [Ep|_];
    cbn [andb orb]; [|discriminate].
  destruct (can_dlc (frame msg) =? 3); [|discriminate].
  intros [= <-]. now rewrite up_pressed_bit, down_pressed_bit.
Qed.

Section Events.

Variable uinput_fd : channel.

(** Whatever the descriptor answers, the events a call submits are an
    initial part of the frame's events: all of them when the call returns,
    at least one when it ends the process. *)
Lemma HandleCanMessage_events (msg : usbcan_msg) (w : World) :
  exists evs suf,
    events_of (world_of (HandleCanMessage uinput_fd msg w))
      = events_of w ++ evs /\
    frame_events msg = evs ++ suf /\
    (returned (HandleCanMessage uinput_fd msg w) = true -> suf = []) /\
    (returned (HandleCanMessage uinput_fd msg w) = false -> evs <> []).
Proof.
  pose proof (HandleCanMessage_run uinput_fd msg w) as H.
  destruct (HandleCanMessage uinput_fd msg w) as [h w'|st w']; cbn.
  - destruct H as (_ & (tr & Hu & Hm & _) & _).
    exists (frame_events msg), []. unfold events_of.
    rewrite Hu, map_app, Hm, app_nil_r. repeat split. discriminate.
  - destruct H as (_ & pre & ev & r & suf & Hu & _ & _ & _ & He).
    exists (map fst pre ++ [ev]), suf. unfold events_of.
    rewrite Hu, !map_app, He, <- app_assoc. cbn. repeat split.
    + discriminate.
    + intros _ Hnil. now apply app_eq_nil in Hnil as [_ Hnil].
Qed.

(** A handler that builds a single event always submits it. *)
Lemma HandleCanMessage_single (msg : usbcan_msg) (w : World)
  (ev : input_event) :
  frame_events msg = [ev] ->
  events_of (world_of (HandleCanMessage uinput_fd msg w))
    = events_of w ++ [ev].
Proof.
  intros Hev.
  destruct (HandleCanMessage_events msg w) as (evs & suf & Hu & He & Hr & Hx).
  rewrite Hu. f_equal. rewrite Hev in He.
  destruct (returned (HandleCanMessage uinput_fd msg w)).
  - rewrite (Hr eq_refl), app_nil_r in He. now symmetry.
  - specialize (Hx eq_refl). destruct evs as [|e [|e' l]].
    + contradiction.
    + cbn in He. now injection He as -> _.
    + discriminate.
Qed.

(** A call can only end the process on a rejected write. *)
Lemma HandleCanMessage_returns (msg : usbcan_msg) (w : World) :
  (forall hist ev, 0 <= uinput_fd hist ev) ->
  returned (HandleCanMessage uinput_fd msg w) = true.
Proof.
  intros Hok. pose proof (HandleCanMessage_run uinput_fd msg w) as H.
  destruct (HandleCanMessage uinput_fd msg w) as [h w'|st w'];
    [reflexivity|].
  destruct H as (_ & pre & ev & r & suf & _ & Hr & Hc & _).
  specialize (Hok (uinput w ++ pre) ev). lia.
Qed.

Lemma CanPacketCallback_returns (msgs : list usbcan_msg) (w : World) :
  (forall hist ev, 0 <= uinput_fd hist ev) ->
  returned (CanPacketCallback uinput_fd msgs w) = true.
Proof.
  intros Hok. pose proof (CanPacketCallback_run uinput_fd msgs w) as H.
  destruct (CanPacketCallback uinput_fd msgs w) as [h w'|st w'];
    [reflexivity|].
  destruct H as (_ & pre & ev & r & suf & _ & Hr & Hc & _).
  specialize (Hok (uinput w ++ pre) ev). lia.
Qed.

End Events.

(** * The decode table *)

(** The writes of one call, whatever the descriptor answers: their events
    are an initial part of the frame's events; if every one of them was
    accepted the call returned, having written all of the frame's events
    and printed the frame's diagnostic only. *)
Lemma HandleCanMessage_trace (uinput_fd : channel) (msg : usbcan_msg)
  (w : World) (tr : list (input_event * Z)) :
  uinput (world_of (HandleCanMessage uinput_fd msg w)) = uinput w ++ tr ->
  (exists suf, frame_events msg = map fst tr ++ suf) /\
  (frame_events msg <> [] -> tr <> []) /\
  (Forall accepted tr ->
   HandleCanMessage uinput_fd msg w
   = Returned (frame_handled msg)
       {| uinput := uinput w ++ tr; stderr := stderr w ++ frame_diag msg |}
   /\ map fst tr = frame_events msg).
Proof.
  intros Htr. pose proof (HandleCanMessage_run uinput_fd msg w) as H.
  destruct (HandleCanMessage uinput_fd msg w) as [h w'|st w'];
    cbn [world_of] in Htr.
  - destruct H as (-> & (tr0 & Hu & Hm & _) & Hs).
    rewrite Hu in Htr. apply app_inv_head in Htr. subst tr0.
    split; [exists []; now rewrite app_nil_r|]. split.
    + intros Hne ->. cbn in Hm. now apply Hne.
    + intros _. split; [|assumption].
      destruct w' as [u e]. cbn in Hu, Hs. now subst u e.
  - destruct H as (_ & pre & ev & r & suf & Hu & Hr & _ & _ & He).
    rewrite Hu in Htr. apply app_inv_head in Htr. subst tr.
    split; [exists suf; now rewrite map_app, <- app_assoc|]. split.
    + intros _ Hnil. now apply app_eq_nil in Hnil as [_ Hnil].
    + intros Hall. exfalso.
      apply (accepted_trace_not_failed (pre ++ [(ev, r)]) ev r);
        try assumption.
      apply in_or_app. right. now left.
Qed.

(** C3: a frame with a recognized identifier and the declared length
    decodes to exactly the events of the table: Gas carries byte 6, Brake
    byte 1, Wheel the negated big-endian signed 16-bit integer of bytes
    1-2, GearUp and GearDown bits 0 and 1 of byte 1. Whatever the
    descriptor answers, the events the call submits are an initial part of
    the table's events, the first of them always among them. If every
    write the call submitted was accepted, the call returned, reporting
    the frame handled, having submitted exactly the table's events in the
    table's order and printed nothing. *)
Theorem decode_matches_table (uinput_fd : channel) (msg : usbcan_msg)
  (w : World) (evs : list input_event) (tr : list (input_event * Z)) :
  wf_msg msg ->
  table_events msg = Some evs ->
  uinput (world_of (HandleCanMessage uinput_fd msg w)) = uinput w ++ tr ->
  (exists suf, evs = map fst tr ++ suf) /\
  tr <> [] /\
  (Forall accepted tr ->
   HandleCanMessage uinput_fd msg w
   = Returned true {| uinput := uinput w ++ tr; stderr := stderr w |} /\
   map fst tr = evs).
Proof.
  intros Hwf Htab Htr.
  destruct (table_events_frame msg evs Hwf Htab) as (Hev & Hdiag & Hh).
  destruct (HandleCanMessage_trace uinput_fd msg w tr Htr)
    as (Hpre & Hne & Hacc).
  rewrite Hev in Hpre, Hne, Hacc.
  rewrite Hdiag, Hh, app_nil_r in Hacc.
  split; [assumption|]. split; [|assumption].
  apply Hne. intros ->. revert Htab. unfold table_events. cbv zeta.
  repeat match goal with
  | |- context [if ?b then _ else _] => destruct b
  end; discriminate.
Qed.

Lemma decode_matches_table_witness :
  wf_msg steering_plus256 /\
  table_events steering_plus256
    = Some [mk_input_event EV_ABS ABS_WHEEL (-256)] /\
  uinput (world_of (HandleCanMessage always_ok steering_plus256 world0))
    = uinput world0 ++ [(mk_input_event EV_ABS ABS_WHEEL (-256), 24)] /\
  Forall accepted [(mk_input_event EV_ABS ABS_WHEEL (-256), 24)] /\
  HandleCanMessage always_ok steering_plus256 world0
    = Returned true
        {| uinput := uinput world0
                     ++ [(mk_input_event EV_ABS ABS_WHEEL (-256), 24)];
           stderr := stderr world0 |} /\
  map fst [(mk_input_event EV_ABS ABS_WHEEL (-256), 24)]
    = [mk_input_event EV_ABS ABS_WHEEL (-256)].
Proof.
  assert (Hacc : Forall accepted
            [(mk_input_event EV_ABS ABS_WHEEL (-256), 24)]).
  { repeat constructor. unfold accepted. cbn. lia. }
  split; [reflexivity|]. split; [reflexivity|]. split; [reflexivity|].
  split; [exact Hacc|].
  apply (decode_matches_table always_ok steering_plus256 world0
           [mk_input_event EV_ABS ABS_WHEEL (-256)]
           [(mk_input_event EV_ABS ABS_WHEEL (-256), 24)]
           eq_refl eq_refl eq_refl).
  exact Hacc.
Defined.

(** The table's rows on the sample frames. *)
Example table_throttle :
  HandleCanMessage always_ok throttle_half world0
  = Returned true
      {| uinput := [(mk_input_event EV_ABS ABS_GAS 128, 24)]; stderr := [] |}.
Proof. reflexivity. Qed.

Example table_brake :
  HandleCanMessage always_ok brake_soft world0
  = Returned true
      {| uinput := [(mk_input_event EV_ABS ABS_BRAKE 32, 24)];
         stderr := [] |}.
Proof. reflexivity. Qed.

Example table_paddles :
  HandleCanMessage always_ok paddles_both world0
  = Returned true
      {| uinput := [(mk_input_event EV_KEY BTN_GEAR_UP 1, 24);
                    (mk_input_event EV_KEY BTN_GEAR_DOWN 1, 24)];
         stderr := [] |}.
Proof. reflexivity. Qed.

(** * Pedals *)

Lemma pedal_frame_events (msg : usbcan_msg) (c : ev_code) (off : nat) :
  wf_msg msg -> pedal_frame msg = Some (c, off) ->
  frame_events msg = [mk_input_event EV_ABS c (data_at msg off)].
Proof.
  intros Hwf Hp.
  apply (table_events_frame msg _ Hwf).
  revert Hp. unfold pedal_frame, table_events. cbv zeta.
  destruct ((can_id (frame msg) =? 417) && (can_dlc (frame msg) =? 7)).
  { now intros [= <- <-]. }
  destruct ((can_id (frame msg) =? 241) && (can_dlc (frame msg) =? 6)).
  { now intros [= <- <-]. }
  discriminate.
Qed.

Lemma pedal_frame_run (uinput_fd : channel) (msg : usbcan_msg)
  (w : World) (c : ev_code) (off : nat) :
  wf_msg msg -> pedal_frame msg = Some (c, off) ->
  events_of (world_of (HandleCanMessage uinput_fd msg w))
    = events_of w ++ [mk_input_event EV_ABS c (data_at msg off)].
Proof.
  intros Hwf Hp. apply HandleCanMessage_single.
  now apply pedal_frame_events.
Qed.

(** C10: on a well-formed throttle frame (0x01a1, length 7) and on a
    well-formed brake frame (0x00f1, length 6) the handler submits one
    axis event whose value is the payload byte itself (byte 6 for Gas,
    byte 1 for Brake), whatever the descriptor answers; the value lies in
    [0, 255] and is never negative. It is compared with neither declared
    maximum. *)
Theorem pedal_value_verbatim (uinput_fd : channel) (msg : usbcan_msg)
  (w : World) (c : ev_code) (off : nat) :
  wf_msg msg ->
  pedal_frame msg = Some (c, off) ->
  events_of (world_of (HandleCanMessage uinput_fd msg w))
    = events_of w ++ [mk_input_event EV_ABS c (data_at msg off)] /\
  0 <= data_at msg off <= 255.
Proof.
  intros Hwf Hp. split.
  - now apply pedal_frame_run.
  - pose proof (wf_msg_byte msg off Hwf). lia.
Qed.

Lemma pedal_value_verbatim_witness :
  wf_msg brake_soft /\
  pedal_frame brake_soft = Some (ABS_BRAKE, 1%nat) /\
  events_of (world_of (HandleCanMessage reject_all brake_soft world0))
    = events_of world0 ++ [mk_input_event EV_ABS ABS_BRAKE 32] /\
  0 <= 32 <= 255.
Proof.
  split; [reflexivity|]. split; [reflexivity|].
  apply (pedal_value_verbatim reject_all brake_soft world0 ABS_BRAKE 1);
    reflexivity.
Defined.

(** Every byte value reaches the device unchanged, those above the
    declared maxima included. *)
Lemma pedal_not_clamped (uinput_fd : channel) (w : World) (b : Z) :
  0 <= b <= 255 ->
  events_of (world_of (HandleCanMessage uinput_fd
     (mk_msg 0x01a1 7 [0; 0; 0; 0; 0; 0; b; 0]) w))
    = events_of w ++ [mk_input_event EV_ABS ABS_GAS b] /\
  events_of (world_of (HandleCanMessage uinput_fd
     (mk_msg 0x00f1 6 [0; b; 0; 0; 0; 0; 0; 0]) w))
    = events_of w ++ [mk_input_event EV_ABS ABS_BRAKE b].
Proof.
  intros Hb.
  assert (Hbyte : is_byte b = true) by (apply is_byte_spec; lia).
  split.
  - apply (pedal_frame_run uinput_fd
             (mk_msg 0x01a1 7 [0; 0; 0; 0; 0; 0; b; 0]) w ABS_GAS 6);
      [|reflexivity].
    unfold wf_msg, wf_msgb. cbn. now rewrite Hbyte.
  - apply (pedal_frame_run uinput_fd
             (mk_msg 0x00f1 6 [0; b; 0; 0; 0; 0; 0; 0]) w ABS_BRAKE 1);
      [|reflexivity].
    unfold wf_msg, wf_msgb. cbn. now rewrite Hbyte.
Qed.

(** * Steering *)

Lemma steering_frame_events (msg : usbcan_msg) :
  wf_msg msg -> steering_frame msg = true ->
  frame_events msg = [mk_input_event EV_ABS ABS_WHEEL (- steering_raw msg)].
Proof.
  intros Hwf Hs. apply (table_events_frame msg _ Hwf).
  unfold steering_frame in Hs. apply andb_true_iff in Hs as [Hid Hlen].
  apply Z.eqb_eq in Hid. unfold table_events. cbv zeta.
  rewrite Hid, Hlen. reflexivity.
Qed.

Lemma steering_raw_range (msg : usbcan_msg) :
  wf_msg msg -> -32768 <= steering_raw msg <= 32767.
Proof.
  intros Hwf. apply be_int16_range; now apply wf_msg_byte.
Qed.

(** Every signed 16-bit value is the raw value of a well-formed steering
    frame. *)
Lemma steering_raw_onto (v : Z) :
  -32768 <= v <= 32767 ->
  exists msg,
    wf_msg msg /\ steering_frame msg = true /\ steering_raw msg = v.
Proof.
  intros Hv.
  set (u := v mod 65536).
  assert (Hu : 0 <= u < 65536) by (apply Z.mod_pos_bound; lia).
  exists (mk_msg 0x01e5 8 [0; u / 256; u mod 256; 0; 0; 0; 0; 0]).
  assert (Hhi : 0 <= u / 256 < 256).
  { split; [apply Z.div_pos; lia|apply Z.div_lt_upper_bound; lia]. }
  assert (Hlo : 0 <= u mod 256 < 256) by (apply Z.mod_pos_bound; lia).
  repeat split.
  - unfold wf_msg, wf_msgb. cbn.
    apply is_byte_spec in Hhi, Hlo. now rewrite Hhi, Hlo.
  - unfold steering_raw, data_at, be_int16. cbn [mk_msg frame data nth].
    cbv zeta. rewrite <- Z.div_mod by lia.
    destruct (Z.ltb_spec u 32768) as [Hs|Hb]; subst u.
    + destruct (Z.le_gt_cases 0 v) as [Hn|Hn].
      * now rewrite Z.mod_small by lia.
      * replace v with ((v + 65536) + (-1) * 65536) in Hs by lia.
        rewrite Z.mod_add, Z.mod_small in Hs by lia. lia.
    + destruct (Z.le_gt_cases 0 v) as [Hn|Hn].
      * rewrite Z.mod_small in Hb by lia. lia.
      * replace v with ((v + 65536) + (-1) * 65536) at 1 by lia.
        rewrite Z.mod_add, Z.mod_small by lia. lia.
Qed.

(** C6: steering decode negates. On well-formed steering frames (0x01e5,
    length 8) the handler submits one Wheel axis event whose value is the
    negation of the raw big-endian signed 16-bit integer at offsets 1-2.
    Hence two frames with opposite raw values give opposite Wheel values,
    and a smaller raw value gives a greater Wheel value. *)
Theorem steering_negates (uinput_fd : channel) (m1 m2 : usbcan_msg)
  (w1 w2 : World) :
  wf_msg m1 -> wf_msg m2 ->
  steering_frame m1 = true -> steering_frame m2 = true ->
  exists e1 e2,
    events_of (world_of (HandleCanMessage uinput_fd m1 w1))
      = events_of w1 ++ [e1] /\
    events_of (world_of (HandleCanMessage uinput_fd m2 w2))
      = events_of w2 ++ [e2] /\
    type e1 = EV_ABS /\ code e1 = ABS_WHEEL /\
    type e2 = EV_ABS /\ code e2 = ABS_WHEEL /\
    value e1 = - steering_raw m1 /\
    value e2 = - steering_raw m2 /\
    (steering_raw m2 = - steering_raw m1 -> value e2 = - value e1) /\
    (steering_raw m1 < steering_raw m2 -> value e1 > value e2).
Proof.
  intros Hwf1 Hwf2 Hs1 Hs2.
  exists (mk_input_event EV_ABS ABS_WHEEL (- steering_raw m1)),
         (mk_input_event EV_ABS ABS_WHEEL (- steering_raw m2)).
  split; [apply HandleCanMessage_single; now apply steering_frame_events|].
  split; [apply HandleCanMessage_single; now apply steering_frame_events|].
  cbn. repeat split; lia.
Qed.

Lemma steering_negates_witness :
  wf_msg steering_plus256 /\ wf_msg steering_minus256 /\
  steering_frame steering_plus256 = true /\
  steering_frame steering_minus256 = true /\
  steering_raw steering_plus256 = 256 /\
  steering_raw steering_minus256 = -256 /\
  exists e1 e2,
    events_of (world_of (HandleCanMessage always_ok steering_minus256 world0))
      = events_of world0 ++ [e1] /\
    events_of (world_of (HandleCanMessage always_ok steering_plus256 world0))
      = events_of world0 ++ [e2] /\
    type e1 = EV_ABS /\ code e1 = ABS_WHEEL /\
    type e2 = EV_ABS /\ code e2 = ABS_WHEEL /\
    value e1 = - steering_raw steering_minus256 /\
    value e2 = - steering_raw steering_plus256 /\
    (steering_raw steering_plus256 = - steering_raw steering_minus256 ->
     value e2 = - value e1) /\
    (steering_raw steering_minus256 < steering_raw steering_plus256 ->
     value e1 > value e2).
Proof.
  repeat (split; [reflexivity|]).
  apply (steering_negates always_ok steering_minus256 steering_plus256
           world0 world0); reflexivity.
Defined.

(** The extreme raw values: -32768 has no opposite raw value and decodes
    to 32768. *)
Example steering_extremes :
  HandleCanMessage always_ok steering_max world0
  = Returned true
      {| uinput := [(mk_input_event EV_ABS ABS_WHEEL (-32767), 24)];
         stderr := [] |} /\
  HandleCanMessage always_ok
    (mk_msg 0x01e5 8 [0; 0x80; 0x00; 0; 0; 0; 0; 0]) world0
  = Returned true
      {| uinput := [(mk_input_event EV_ABS ABS_WHEEL 32768, 24)];
         stderr := [] |}.
Proof. split; reflexivity. Qed.

(** * Paddle shifters *)

Lemma paddle_frame_events (msg : usbcan_msg) :
  can_id (frame msg) = 0x01f3 -> can_dlc (frame msg) = 3 ->
  frame_events msg
  = [mk_input_event EV_KEY BTN_GEAR_UP
       (Z.b2z (Z.testbit (data_at msg 1) 0));
     mk_input_event EV_KEY BTN_GEAR_DOWN
       (Z.b2z (Z.testbit (data_at msg 1) 1))].
Proof.
  intros Hid Hlen. unfold frame_events. cbv zeta. rewrite Hid, Hlen.
  cbn [Z.eqb Pos.eqb kThrottleId kBrakeId kSteeringId kPaddleShifterId].
  now rewrite up_pressed_bit, down_pressed_bit.
Qed.

Lemma paddle_frame_quiet (msg : usbcan_msg) :
  can_id (frame msg) = 0x01f3 -> can_dlc (frame msg) = 3 ->
  frame_diag msg = [] /\ frame_handled msg = true.
Proof.
  intros Hid Hlen. unfold frame_diag, frame_handled. cbv zeta.
  rewrite Hid, Hlen. split; reflexivity.
Qed.

(** C7: on a well-formed paddle-shifter frame (0x01f3, length 3) the
    handler submits GearUp carrying bit 0 of byte 1 and then GearDown
    carrying bit 1, as 0 or 1, whichever bits of the payload are set.
    Whatever the descriptor answers, the writes of the call are these two
    events in this order, or GearUp alone when that write was rejected.
    If every write the call submitted was accepted, the call returned
    having submitted exactly the two button events and printed nothing;
    with byte 1 zero both are then submitted as released. *)
Theorem paddle_two_buttons (uinput_fd : channel) (msg : usbcan_msg)
  (w : World) (tr : list (input_event * Z)) :
  can_id (frame msg) = 0x01f3 -> can_dlc (frame msg) = 3 ->
  uinput (world_of (HandleCanMessage uinput_fd msg w)) = uinput w ++ tr ->
  (map fst tr
   = [mk_input_event EV_KEY BTN_GEAR_UP
        (Z.b2z (Z.testbit (data_at msg 1) 0));
      mk_input_event EV_KEY BTN_GEAR_DOWN
        (Z.b2z (Z.testbit (data_at msg 1) 1))]
   \/ exists r,
        tr = [(mk_input_event EV_KEY BTN_GEAR_UP
                 (Z.b2z (Z.testbit (data_at msg 1) 0)), r)] /\ r < 0) /\
  (Forall accepted tr ->
   HandleCanMessage uinput_fd msg w
   = Returned true {| uinput := uinput w ++ tr; stderr := stderr w |} /\
   map fst tr
   = [mk_input_event EV_KEY BTN_GEAR_UP
        (Z.b2z (Z.testbit (data_at msg 1) 0));
      mk_input_event EV_KEY BTN_GEAR_DOWN
        (Z.b2z (Z.testbit (data_at msg 1) 1))] /\
   (data_at msg 1 = 0 ->
    map fst tr
    = [mk_input_event EV_KEY BTN_GEAR_UP 0;
       mk_input_event EV_KEY BTN_GEAR_DOWN 0])).
Proof.
  intros Hid Hlen Htr.
  destruct (HandleCanMessage_trace uinput_fd msg w tr Htr)
    as ((suf & Hpre) & Hne & Hacc).
  destruct (paddle_frame_quiet msg Hid Hlen) as (Hdiag & Hh).
  rewrite (paddle_frame_events msg Hid Hlen) in Hpre, Hne, Hacc.
  rewrite Hdiag, Hh, app_nil_r in Hacc.
  split.
  - destruct tr as [|[e1 r1] [|[e2 r2] tr']].
    + exfalso. now apply Hne.
    + cbn in Hpre. injection Hpre as <- _. right. exists r1.
      split; [reflexivity|].
      destruct (Z.lt_ge_cases r1 0) as [Hr|Hr]; [assumption|].
      exfalso. assert (Hall : Forall accepted
        [(mk_input_event EV_KEY BTN_GEAR_UP
            (Z.b2z (Z.testbit (data_at msg 1) 0)), r1)]).
      { repeat constructor. exact Hr. }
      destruct (Hacc Hall) as (_ & Habs). discriminate Habs.
    + left. cbn in Hpre. injection Hpre as <- <- Hrest.
      destruct tr'; [reflexivity|discriminate Hrest].
  - intros Hall. destruct (Hacc Hall) as (Hrun & Hm).
    split; [assumption|]. split; [assumption|].
    intros Hz. rewrite Hm, Hz. reflexivity.
Qed.

Lemma paddle_two_buttons_witness :
  can_id (frame paddles_none) = 0x01f3 /\
  can_dlc (frame paddles_none) = 3 /\
  uinput (world_of (HandleCanMessage always_ok paddles_none world0))
  = uinput world0
    ++ [(mk_input_event EV_KEY BTN_GEAR_UP 0, 24);
        (mk_input_event EV_KEY BTN_GEAR_DOWN 0, 24)] /\
  Forall accepted
    [(mk_input_event EV_KEY BTN_GEAR_UP 0, 24);
     (mk_input_event EV_KEY BTN_GEAR_DOWN 0, 24)] /\
  HandleCanMessage always_ok paddles_none world0
  = Returned true
      {| uinput := uinput world0
                   ++ [(mk_input_event EV_KEY BTN_GEAR_UP 0, 24);
                       (mk_input_event EV_KEY BTN_GEAR_DOWN 0, 24)];
         stderr := stderr world0 |}.
Proof.
  assert (Hacc : Forall accepted
            [(mk_input_event EV_KEY BTN_GEAR_UP 0, 24);
             (mk_input_event EV_KEY BTN_GEAR_DOWN 0, 24)]).
  { repeat constructor; unfold accepted; cbn; lia. }
  split; [reflexivity|]. split; [reflexivity|]. split; [reflexivity|].
  split; [exact Hacc|].
  apply (paddle_two_buttons always_ok paddles_none world0
           [(mk_input_event EV_KEY BTN_GEAR_UP 0, 24);
            (mk_input_event EV_KEY BTN_GEAR_DOWN 0, 24)]
           eq_refl eq_refl eq_refl).
  exact Hacc.
Defined.

(** A paddle call returns exactly when the descriptor accepts both
    writes; a rejected first write leaves the second unsubmitted. *)
Example paddle_first_write_rejected :
  HandleCanMessage reject_all paddles_both world0
  = Exited (-1)
      {| uinput := [(mk_input_event EV_KEY BTN_GEAR_UP 1, -1)];
         stderr := [FprintfErrno "Failed to write gear up event: %d (%s)"] |}.
Proof. reflexivity. Qed.

(** * Declared axis ranges *)

Lemma frame_events_axis (msg : usbcan_msg) (ev : input_event) :
  wf_msg msg -> In ev (frame_events msg) -> type ev = EV_ABS ->
  ev = mk_input_event EV_ABS ABS_GAS (data_at msg 6)
  \/ ev = mk_input_event EV_ABS ABS_BRAKE (data_at msg 1)
  \/ ev = mk_input_event EV_ABS ABS_WHEEL (- steering_raw msg).
Proof.
  intros Hwf Hin Hty.
  pose proof (wf_msg_byte msg 1 Hwf) as H1.
  pose proof (wf_msg_byte msg 2 Hwf) as H2.
  pose proof (wf_msg_byte msg 6 Hwf) as H6.
  pose proof (be_int16_range _ _ H1 H2) as Hr.
  revert Hin. unfold frame_events. cbv zeta.
  repeat match goal with
  | |- context [if ?b then _ else _] => destruct b
  end; cbn [In]; intros Hin;
  repeat match goal with
  | H : _ \/ _ |- _ => destruct H as [H|H]
  | H : False |- _ => destruct H
  end; subst ev; try discriminate.
  - left. now rewrite to_int32_id by lia.
  - right; left. now rewrite to_int32_id by lia.
  - right; right. unfold steering_raw.
    rewrite steering_raw_be by assumption. now rewrite to_int32_id by lia.
Qed.

(** C1, as the code has it: no handler compares a value with the range
    the descriptor declares. Every axis event a call submits for a
    well-formed frame carries the payload field unchanged (Gas: byte 6,
    Brake: byte 1, both within [0, 255]; Wheel: the negated raw 16-bit
    value, within [-32767, 32768]), and it lies in the declared range
    exactly when the payload field does: byte 6 at most 0xfe for Gas, byte
    1 at most 0x4b for Brake, the raw value within [-0x1d00, 0x1d00] for
    Wheel. *)
Theorem axis_value_range (uinput_fd : channel) (msg : usbcan_msg)
  (w : World) (evs : list input_event) (ev : input_event) :
  wf_msg msg ->
  events_of (world_of (HandleCanMessage uinput_fd msg w))
    = events_of w ++ evs ->
  In ev evs ->
  type ev = EV_ABS ->
  match code ev with
  | ABS_GAS =>
      value ev = data_at msg 6 /\ 0 <= value ev <= 255 /\
      (in_declared_range ev <-> data_at msg 6 <= 0xfe)
  | ABS_BRAKE =>
      value ev = data_at msg 1 /\ 0 <= value ev <= 255 /\
      (in_declared_range ev <-> data_at msg 1 <= 0x4b)
  | ABS_WHEEL =>
      value ev = - steering_raw msg /\ -32767 <= value ev <= 32768 /\
      (in_declared_range ev <-> -0x1d00 <= steering_raw msg <= 0x1d00)
  | _ => False
  end.
Proof.
  intros Hwf Hrun Hin Hty.
  destruct (HandleCanMessage_events uinput_fd msg w)
    as (evs' & suf & Hu & He & _).
  rewrite Hu in Hrun. apply app_inv_head in Hrun. subst evs'.
  assert (Hin' : In ev (frame_events msg)).
  { rewrite He. apply in_or_app. now left. }
  pose proof (wf_msg_byte msg 1 Hwf) as H1.
  pose proof (wf_msg_byte msg 6 Hwf) as H6.
  pose proof (steering_raw_range msg Hwf) as Hr.
  destruct (frame_events_axis msg ev Hwf Hin' Hty) as [-> | [-> | ->]];
    unfold in_declared_range; cbn;
    unfold kThrottleLimit, kBrakeLimit, kSteeringLimit; repeat split; lia.
Qed.

Lemma axis_value_range_witness :
  wf_msg throttle_full /\
  events_of (world_of (HandleCanMessage always_ok throttle_full world0))
    = events_of world0 ++ [mk_input_event EV_ABS ABS_GAS 255] /\
  In (mk_input_event EV_ABS ABS_GAS 255)
     [mk_input_event EV_ABS ABS_GAS 255] /\
  255 = data_at throttle_full 6 /\ 0 <= 255 <= 255 /\
  (in_declared_range (mk_input_event EV_ABS ABS_GAS 255)
   <-> data_at throttle_full 6 <= 0xfe).
Proof.
  split; [reflexivity|]. split; [reflexivity|].
  split; [left; reflexivity|].
  apply (axis_value_range always_ok throttle_full world0
           [mk_input_event EV_ABS ABS_GAS 255]
           (mk_input_event EV_ABS ABS_GAS 255));
    [reflexivity|reflexivity|left; reflexivity|reflexivity].
Defined.

(** C1 as stated fails: a full-scale byte on either pedal, or a raw
    steering value beyond 0x1d00, is submitted outside the declared
    range. *)
Lemma axis_range_counterexample :
  (wf_msg throttle_full /\
   HandleCanMessage always_ok throttle_full world0
   = Returned true
       {| uinput := [(mk_input_event EV_ABS ABS_GAS 255, 24)];
          stderr := [] |} /\
   ~ in_declared_range (mk_input_event EV_ABS ABS_GAS 255)) /\
  (wf_msg brake_full /\
   HandleCanMessage always_ok brake_full world0
   = Returned true
       {| uinput := [(mk_input_event EV_ABS ABS_BRAKE 255, 24)];
          stderr := [] |} /\
   ~ in_declared_range (mk_input_event EV_ABS ABS_BRAKE 255)) /\
  (wf_msg steering_max /\
   HandleCanMessage always_ok steering_max world0
   = Returned true
       {| uinput := [(mk_input_event EV_ABS ABS_WHEEL (-32767), 24)];
          stderr := [] |} /\
   ~ in_declared_range (mk_input_event EV_ABS ABS_WHEEL (-32767))).
Proof.
  repeat split; unfold in_declared_range; cbn;
    unfold kThrottleLimit, kBrakeLimit, kSteeringLimit; lia.
Qed.

(** * Malformed and unrecognized frames *)

(** C5: a frame with a recognized identifier and a length other than the
    declared one submits no write, prints exactly one malformed-frame
    diagnostic, returns to the loop reporting the frame handled, and the
    loop goes on with the next frame from that state with its [handled]
    flag set. *)
Theorem malformed_frame_skipped (uinput_fd : channel) (msg : usbcan_msg)
  (w : World) (len : Z) :
  declared_length (can_id (frame msg)) = Some len ->
  can_dlc (frame msg) <> len ->
  exists line,
    is_malformed_diag line = true /\
    HandleCanMessage uinput_fd msg w
    = Returned true {| uinput := uinput w; stderr := stderr w ++ [line] |} /\
    forall rest handled,
      CanPacketCallback_loop uinput_fd (msg :: rest) handled w
      = CanPacketCallback_loop uinput_fd rest true
          {| uinput := uinput w; stderr := stderr w ++ [line] |}.
Proof.
  unfold declared_length. intros Hdecl Hlen.
  assert (Hrun : exists line, is_malformed_diag line = true /\
    HandleCanMessage uinput_fd msg w
    = Returned true {| uinput := uinput w; stderr := stderr w ++ [line] |}).
  { unfold HandleCanMessage, kThrottleId, kBrakeId, kSteeringId,
      kPaddleShifterId. cbv zeta.
    destruct (can_id (frame msg) =? 417).
    { injection Hdecl as <-. apply Z.eqb_neq in Hlen.
      unfold HandleThrottlePos. rewrite Hlen.
      now exists (Fprintf "Malformed accelerator position"). }
    destruct (can_id (frame msg) =? 241).
    { injection Hdecl as <-. apply Z.eqb_neq in Hlen.
      unfold HandleBrakePos. rewrite Hlen.
      now exists (Fprintf "Malformed brake position"). }
    destruct (can_id (frame msg) =? 485).
    { injection Hdecl as <-. apply Z.eqb_neq in Hlen.
      unfold HandleSteeringPos. rewrite Hlen.
      now exists (Fprintf "Malformed steering position"). }
    destruct (can_id (frame msg) =? 499); [|discriminate].
    injection Hdecl as <-. apply Z.eqb_neq in Hlen.
    unfold HandlePaddleShifter. rewrite Hlen.
    now exists (Fprintf "Malformed steering position"). }
  destruct Hrun as (line & Hdiag & Hrun).
  exists line. repeat split; try assumption.
  intros rest handled. cbn [CanPacketCallback_loop]. unfold bind.
  now rewrite Hrun, orb_true_r.
Qed.

Lemma malformed_frame_skipped_witness :
  declared_length (can_id (frame throttle_short)) = Some 7 /\
  can_dlc (frame throttle_short) <> 7 /\
  exists line,
    is_malformed_diag line = true /\
    HandleCanMessage reject_all throttle_short world0
    = Returned true {| uinput := []; stderr := [line] |} /\
    forall rest handled,
      CanPacketCallback_loop reject_all (throttle_short :: rest) handled world0
      = CanPacketCallback_loop reject_all rest true
          {| uinput := []; stderr := [line] |}.
Proof.
  split; [reflexivity|]. split; [discriminate|].
  apply (malformed_frame_skipped reject_all throttle_short world0 7);
    [reflexivity|discriminate].
Defined.

(** A batch holding only a malformed frame still ends in a sync marker. *)
Example malformed_frame_alone :
  CanPacketCallback always_ok [throttle_short] world0
  = Returned tt
      {| uinput := [(sync_event, 24)];
         stderr := [Fprintf "Malformed accelerator position"] |}.
Proof. reflexivity. Qed.

(** C8: a frame whose identifier is none of the four recognized ones,
    whatever its length and payload, leaves the world as it was (no write,
    no line on stderr), is reported as not handled, and leaves the loop's
    [handled] flag as it was; alone in a batch it produces no sync
    marker. *)
Theorem unrecognized_frame_ignored (uinput_fd : channel)
  (msg : usbcan_msg) (w : World) :
  ~ In (can_id (frame msg)) [0x01a1; 0x00f1; 0x01e5; 0x01f3] ->
  HandleCanMessage uinput_fd msg w = Returned false w /\
  (forall rest handled,
     CanPacketCallback_loop uinput_fd (msg :: rest) handled w
     = CanPacketCallback_loop uinput_fd rest handled w) /\
  CanPacketCallback uinput_fd [msg] w = Returned tt w.
Proof.
  intros Hid.
  assert (Hrun : HandleCanMessage uinput_fd msg w = Returned false w).
  { unfold HandleCanMessage, kThrottleId, kBrakeId, kSteeringId,
      kPaddleShifterId. cbv zeta.
    repeat match goal with
    | |- context [can_id (frame msg) =? ?k] =>
        destruct (Z.eqb_spec (can_id (frame msg)) k) as [E|_];
        [exfalso; apply Hid; rewrite E; cbn; tauto|]
    end.
    reflexivity. }
  split; [assumption|]. split.
  - intros rest handled. cbn [CanPacketCallback_loop]. unfold bind.
    now rewrite Hrun, orb_false_r.
  - unfold CanPacketCallback. cbn [CanPacketCallback_loop]. unfold bind.
    now rewrite Hrun.
Qed.

Lemma unrecognized_frame_ignored_witness :
  ~ In (can_id (frame unknown_frame)) [0x01a1; 0x00f1; 0x01e5; 0x01f3] /\
  HandleCanMessage reject_all unknown_frame world0 = Returned false world0 /\
  (forall rest handled,
     CanPacketCallback_loop reject_all (unknown_frame :: rest) handled world0
     = CanPacketCallback_loop reject_all rest handled world0) /\
  CanPacketCallback reject_all [unknown_frame] world0 = Returned tt world0.
Proof.
  assert (H : ~ In (can_id (frame unknown_frame))
                  [0x01a1; 0x00f1; 0x01e5; 0x01f3]).
  { cbn. intros [H|[H|[H|[H|[]]]]]; discriminate H. }
  split; [exact H|].
  exact (unrecognized_frame_ignored reject_all unknown_frame world0 H).
Defined.

(** * Batches *)

Lemma is_sync_false (ev : input_event) :
  is_sync ev = false <-> type ev <> EV_SYN.
Proof.
  unfold is_sync. destruct (type ev); cbn; split; congruence.
Qed.

(** The events of a batch, read off the loop and the trailing write. *)
Lemma CanPacketCallback_returned_events (uinput_fd : channel)
  (msgs : list usbcan_msg) (w w' : World) (u : unit) :
  CanPacketCallback uinput_fd msgs w = Returned u w' ->
  events_of w'
  = events_of w ++ flat_map frame_events msgs
    ++ (if existsb frame_handled msgs then [sync_event] else []).
Proof.
  intros Hrun. pose proof (CanPacketCallback_run uinput_fd msgs w) as H.
  rewrite Hrun in H. destruct H as (w1 & (tr & Hu & Hm & _) & _ & Hsync).
  unfold events_of.
  destruct (existsb frame_handled msgs).
  - destruct Hsync as (Hu' & _).
    rewrite Hu', Hu, !map_app, Hm. cbn. now rewrite app_assoc.
  - subst w'. now rewrite Hu, map_app, Hm, app_nil_r.
Qed.

(** The writes of one callback, whatever the descriptor answers: their
    events are an initial part of the batch's events; the callback returns
    as soon as every axis and button write it made was accepted, and when
    it returns it has written all of the batch's events. *)
Lemma CanPacketCallback_trace (uinput_fd : channel)
  (msgs : list usbcan_msg) (w : World) (tr : list (input_event * Z)) :
  uinput (world_of (CanPacketCallback uinput_fd msgs w)) = uinput w ++ tr ->
  (exists suf,
     flat_map frame_events msgs
       ++ (if existsb frame_handled msgs then [sync_event] else [])
     = map fst tr ++ suf) /\
  (data_accepted tr ->
   returned (CanPacketCallback uinput_fd msgs w) = true) /\
  (returned (CanPacketCallback uinput_fd msgs w) = true ->
   map fst tr
   = flat_map frame_events msgs
     ++ (if existsb frame_handled msgs then [sync_event] else [])).
Proof.
  intros Htr. pose proof (CanPacketCallback_run uinput_fd msgs w) as H.
  destruct (CanPacketCallback uinput_fd msgs w) as [u w'|st w'] eqn:Hrun;
    cbn [world_of returned] in *.
  - pose proof (CanPacketCallback_returned_events _ _ _ _ _ Hrun) as Hev.
    unfold events_of in Hev. rewrite Htr, map_app in Hev.
    apply app_inv_head in Hev.
    split; [exists []; now rewrite app_nil_r|]. now split.
  - destruct H as (_ & pre & ev & r & suf & Hu & Hr & _ & _ & He).
    rewrite Hu in Htr. apply app_inv_head in Htr. subst tr.
    split; [|split; [|discriminate]].
    + exists (suf ++ (if existsb frame_handled msgs
                      then [sync_event] else [])).
      rewrite He, map_app, <- !app_assoc. reflexivity.
    + intros Hall. exfalso. unfold data_accepted in Hall.
      apply Forall_app in Hall as [_ Hlast].
      inversion Hlast as [|p q Hp _]; subst. cbn [fst snd] in Hp.
      assert (Hd : is_sync ev = false).
      { pose proof (batch_events_not_sync msgs) as Hns.
        rewrite Forall_forall in Hns. apply Hns.
        rewrite He. apply in_or_app. right. now left. }
      specialize (Hp Hd). lia.
Qed.

(** C2: a batch processed in delivery order ends in exactly one sync
    marker when some frame carries one of the identifiers 0x01a1, 0x00f1,
    0x01e5, 0x01f3 (malformed frames included), and in none otherwise.
    If every axis and button write the callback submitted was accepted,
    then the callback returned, and the events it submitted are the
    per-frame events of the whole batch in delivery order, none of them a
    sync marker, followed by that one sync marker or by nothing. *)
Theorem sync_once_after_batch (uinput_fd : channel)
  (msgs : list usbcan_msg) (w : World) (tr : list (input_event * Z)) :
  uinput (world_of (CanPacketCallback uinput_fd msgs w)) = uinput w ++ tr ->
  data_accepted tr ->
  exists w' per_frame,
    CanPacketCallback uinput_fd msgs w = Returned tt w' /\
    per_frame = flat_map frame_events msgs /\
    Forall (fun ev => type ev <> EV_SYN) per_frame /\
    map fst tr
    = per_frame ++ (if existsb recognized msgs then [sync_event] else []) /\
    events_of w'
    = events_of w ++ per_frame
      ++ (if existsb recognized msgs then [sync_event] else []) /\
    sync_count (map fst tr)
    = (if existsb recognized msgs then 1 else 0)%nat.
Proof.
  intros Htr Hacc.
  destruct (CanPacketCallback_trace uinput_fd msgs w tr Htr)
    as (_ & Hret & Hall).
  specialize (Hret Hacc). specialize (Hall Hret).
  rewrite existsb_handled_recognized in Hall.
  destruct (CanPacketCallback uinput_fd msgs w) as [[] w'|st w'] eqn:Hrun;
    [|discriminate Hret].
  cbn [world_of] in Htr.
  exists w', (flat_map frame_events msgs).
  pose proof (batch_events_not_sync msgs) as Hns.
  split; [reflexivity|]. split; [reflexivity|]. split; [|split; [|split]].
  - eapply Forall_impl; [|exact Hns]. intros ev. apply is_sync_false.
  - assumption.
  - unfold events_of. now rewrite Htr, map_app, Hall.
  - rewrite Hall. unfold sync_count. rewrite filter_app, length_app.
    fold (sync_count (flat_map frame_events msgs)).
    rewrite (sync_count_none _ Hns).
    now destruct (existsb recognized msgs).
Qed.

Lemma sync_once_after_batch_witness :
  uinput (world_of
    (CanPacketCallback reject_sync
       [unknown_frame; throttle_short; paddles_both; unknown_frame] world0))
  = uinput world0
    ++ [(mk_input_event EV_KEY BTN_GEAR_UP 1, 24);
        (mk_input_event EV_KEY BTN_GEAR_DOWN 1, 24);
        (sync_event, -1)] /\
  data_accepted
    [(mk_input_event EV_KEY BTN_GEAR_UP 1, 24);
     (mk_input_event EV_KEY BTN_GEAR_DOWN 1, 24);
     (sync_event, -1)] /\
  exists w' per_frame,
    CanPacketCallback reject_sync
      [unknown_frame; throttle_short; paddles_both; unknown_frame] world0
    = Returned tt w' /\
    per_frame
    = flat_map frame_events
        [unknown_frame; throttle_short; paddles_both; unknown_frame] /\
    Forall (fun ev => type ev <> EV_SYN) per_frame /\
    [mk_input_event EV_KEY BTN_GEAR_UP 1;
     mk_input_event EV_KEY BTN_GEAR_DOWN 1; sync_event]
    = per_frame ++ [sync_event] /\
    events_of w' = events_of world0 ++ per_frame ++ [sync_event] /\
    sync_count
      [mk_input_event EV_KEY BTN_GEAR_UP 1;
       mk_input_event EV_KEY BTN_GEAR_DOWN 1; sync_event]
    = 1%nat.
Proof.
  assert (Hacc : data_accepted
            [(mk_input_event EV_KEY BTN_GEAR_UP 1, 24);
             (mk_input_event EV_KEY BTN_GEAR_DOWN 1, 24);
             (sync_event, -1)]).
  { repeat constructor; cbn; intros H; try lia; discriminate H. }
  split; [reflexivity|]. split; [exact Hacc|].
  exact (sync_once_after_batch reject_sync
           [unknown_frame; throttle_short; paddles_both; unknown_frame]
           world0
           [(mk_input_event EV_KEY BTN_GEAR_UP 1, 24);
            (mk_input_event EV_KEY BTN_GEAR_DOWN 1, 24);
            (sync_event, -1)]
           eq_refl Hacc).
Defined.

(** A batch without a recognized identifier submits nothing. *)
Example batch_unrecognized_only :
  CanPacketCallback reject_all [unknown_frame; unknown_frame] world0
  = Returned tt world0.
Proof. reflexivity. Qed.

(** Whatever the descriptor answers, the events a callback submits are an
    initial part of the batch's events, and all of them when it returns. *)
Lemma CanPacketCallback_events_prefix (uinput_fd : channel)
  (msgs : list usbcan_msg) (w : World) :
  exists evs suf,
    events_of (world_of (CanPacketCallback uinput_fd msgs w))
      = events_of w ++ evs /\
    flat_map frame_events msgs
      ++ (if existsb frame_handled msgs then [sync_event] else [])
    = evs ++ suf /\
    (returned (CanPacketCallback uinput_fd msgs w) = true -> suf = []).
Proof.
  pose proof (CanPacketCallback_run uinput_fd msgs w) as H.
  destruct (CanPacketCallback uinput_fd msgs w) as [u w'|st w'] eqn:Hrun.
  - eexists _, []. split; [|split; [|reflexivity]].
    + cbn [world_of].
      exact (CanPacketCallback_returned_events _ _ _ _ _ Hrun).
    + now rewrite app_nil_r.
  - destruct H as (_ & pre & ev & r & suf & Hu & _ & _ & _ & He).
    exists (map fst pre ++ [ev]),
      (suf ++ (if existsb frame_handled msgs then [sync_event] else [])).
    cbn [world_of returned]. unfold events_of. split; [|split].
    + now rewrite Hu, !map_app.
    + rewrite He, <- !app_assoc. reflexivity.
    + discriminate.
Qed.

Lemma prefixes_comparable {A : Type} (l a b s1 s2 : list A) :
  l = a ++ s1 -> l = b ++ s2 -> exists suf, b = a ++ suf \/ a = b ++ suf.
Proof.
  revert l b. induction a as [|x a IH]; intros l b Ha Hb.
  - exists b. now left.
  - destruct b as [|y b].
    + exists (x :: a). now right.
    + subst l. cbn in Hb. injection Hb as -> Hb.
      destruct (IH _ b eq_refl Hb) as (suf & [->| ->]); exists suf;
        [left|right]; reflexivity.
Qed.

(** C9: the callback keeps no state between invocations: the events of a
    batch are a function of its frames alone. Take two invocations on the
    same batch, whatever was written before each of them and whatever
    descriptor each writes to. If in both every axis and button write
    was accepted, both return and they have submitted the same events;
    more generally they have submitted the same events whenever both
    return, and in every case the events of one are an initial part of
    the events of the other (an invocation ended by a rejected write stops
    short). So what an earlier batch did has no bearing on the events of a
    later one. *)
Theorem batch_events_stateless (fd1 fd2 : channel)
  (msgs : list usbcan_msg) (w1 w2 : World)
  (tr1 tr2 : list (input_event * Z)) :
  uinput (world_of (CanPacketCallback fd1 msgs w1)) = uinput w1 ++ tr1 ->
  uinput (world_of (CanPacketCallback fd2 msgs w2)) = uinput w2 ++ tr2 ->
  (data_accepted tr1 -> data_accepted tr2 ->
   returned (CanPacketCallback fd1 msgs w1) = true /\
   returned (CanPacketCallback fd2 msgs w2) = true /\
   map fst tr1 = map fst tr2) /\
  (returned (CanPacketCallback fd1 msgs w1) = true ->
   returned (CanPacketCallback fd2 msgs w2) = true ->
   map fst tr1 = map fst tr2) /\
  (exists suf,
     map fst tr2 = map fst tr1 ++ suf \/ map fst tr1 = map fst tr2 ++ suf).
Proof.
  intros Ht1 Ht2.
  destruct (CanPacketCallback_trace fd1 msgs w1 tr1 Ht1)
    as ((s1 & Hp1) & Hret1 & Hall1).
  destruct (CanPacketCallback_trace fd2 msgs w2 tr2 Ht2)
    as ((s2 & Hp2) & Hret2 & Hall2).
  split; [|split].
  - intros Ha1 Ha2. specialize (Hret1 Ha1). specialize (Hret2 Ha2).
    split; [assumption|]. split; [assumption|].
    now rewrite (Hall1 Hret1), (Hall2 Hret2).
  - intros R1 R2. now rewrite (Hall1 R1), (Hall2 R2).
  - exact (prefixes_comparable _ _ _ _ _ Hp1 Hp2).
Qed.

Lemma batch_events_stateless_witness :
  uinput (world_of
    (CanPacketCallback always_ok [throttle_half; brake_soft] world0))
  = uinput world0
    ++ [(mk_input_event EV_ABS ABS_GAS 128, 24);
        (mk_input_event EV_ABS ABS_BRAKE 32, 24); (sync_event, 24)] /\
  uinput (world_of
    (CanPacketCallback reject_sync [throttle_half; brake_soft] world_used))
  = uinput world_used
    ++ [(mk_input_event EV_ABS ABS_GAS 128, 24);
        (mk_input_event EV_ABS ABS_BRAKE 32, 24); (sync_event, -1)] /\
  data_accepted
    [(mk_input_event EV_ABS ABS_GAS 128, 24);
     (mk_input_event EV_ABS ABS_BRAKE 32, 24); (sync_event, 24)] /\
  data_accepted
    [(mk_input_event EV_ABS ABS_GAS 128, 24);
     (mk_input_event EV_ABS ABS_BRAKE 32, 24); (sync_event, -1)] /\
  returned (CanPacketCallback always_ok [throttle_half; brake_soft] world0)
  = true /\
  returned
    (CanPacketCallback reject_sync [throttle_half; brake_soft] world_used)
  = true /\
  map fst
    [(mk_input_event EV_ABS ABS_GAS 128, 24);
     (mk_input_event EV_ABS ABS_BRAKE 32, 24); (sync_event, 24)]
  = map fst
      [(mk_input_event EV_ABS ABS_GAS 128, 24);
       (mk_input_event EV_ABS ABS_BRAKE 32, 24); (sync_event, -1)].
Proof.
  assert (Ha1 : data_accepted
            [(mk_input_event EV_ABS ABS_GAS 128, 24);
             (mk_input_event EV_ABS ABS_BRAKE 32, 24); (sync_event, 24)]).
  { repeat constructor; cbn; intros H; lia. }
  assert (Ha2 : data_accepted
            [(mk_input_event EV_ABS ABS_GAS 128, 24);
             (mk_input_event EV_ABS ABS_BRAKE 32, 24); (sync_event, -1)]).
  { repeat constructor; cbn; intros H; try lia; discriminate H. }
  split; [reflexivity|]. split; [reflexivity|].
  split; [exact Ha1|]. split; [exact Ha2|].
  exact (proj1 (batch_events_stateless always_ok reject_sync
                  [throttle_half; brake_soft] world0 world_used
                  [(mk_input_event EV_ABS ABS_GAS 128, 24);
                   (mk_input_event EV_ABS ABS_BRAKE 32, 24);
                   (sync_event, 24)]
                  [(mk_input_event EV_ABS ABS_GAS 128, 24);
                   (mk_input_event EV_ABS ABS_BRAKE 32, 24);
                   (sync_event, -1)]
                  eq_refl eq_refl) Ha1 Ha2).
Defined.

(** Two callbacks in a row: the second batch's events are those it
    submits on its own. *)
Lemma later_batch_unaffected (uinput_fd fd0 : channel)
  (b1 b2 : list usbcan_msg) (w w1 w2 w0 : World) :
  CanPacketCallback uinput_fd b1 w = Returned tt w1 ->
  CanPacketCallback uinput_fd b2 w1 = Returned tt w2 ->
  CanPacketCallback fd0 b2 world0 = Returned tt w0 ->
  events_of w2 = events_of w1 ++ events_of w0.
Proof.
  intros _ H2 H0.
  rewrite (CanPacketCallback_returned_events _ _ _ _ _ H2).
  now rewrite (CanPacketCallback_returned_events _ _ _ _ _ H0).
Qed.

(** * Write failures *)

Lemma snoc_split {A : Type} (l pre post : list A) (x y : A) :
  l ++ [x] = pre ++ y :: post ->
  (post = [] /\ y = x /\ pre = l) \/ In y l.
Proof.
  intros H. destruct post as [|z post'].
  - apply app_inj_tail in H as [-> ->]. now left.
  - right.
    destruct (exists_last (l := z :: post')) as (q & last & Hq);
      [discriminate|].
    rewrite Hq in H. change (y :: q ++ [last]) with ((y :: q) ++ [last]) in H.
    rewrite app_assoc in H. apply app_inj_tail in H as [-> _].
    apply in_or_app. right. now left.
Qed.

Lemma accepted_not_failed (tr : list (input_event * Z)) (ev : input_event)
  (r : Z) :
  Forall accepted tr -> In (ev, r) tr -> r < 0 -> False.
Proof.
  intros Hall Hin Hr. rewrite Forall_forall in Hall.
  specialize (Hall _ Hin). unfold accepted in Hall. cbn in Hall. lia.
Qed.

(** C4: the two classes of event fail differently. Take any write the
    callback submitted that the descriptor rejected. It is the last write
    of the call. If it carried an axis or button event, the call ended
    the process there with [exit(-1)], a non-zero status (255). If it
    carried the sync marker, the call printed the failure and returned to
    its caller as usual. *)
Theorem write_failure_severity (uinput_fd : channel)
  (msgs : list usbcan_msg) (w : World)
  (pre post : list (input_event * Z)) (ev : input_event) (r : Z) :
  uinput (world_of (CanPacketCallback uinput_fd msgs w))
    = uinput w ++ pre ++ (ev, r) :: post ->
  r < 0 ->
  post = [] /\
  if is_sync ev then
    exists w',
      CanPacketCallback uinput_fd msgs w = Returned tt w' /\
      stderr w' = stderr w ++ flat_map frame_diag msgs ++ [sync_failed]
  else
    exists w',
      CanPacketCallback uinput_fd msgs w = Exited (-1) w' /\
      exit_status (-1) = 255.
Proof.
  intros Htr Hr.
  pose proof (CanPacketCallback_run uinput_fd msgs w) as H.
  pose proof (batch_events_not_sync msgs) as Hns.
  rewrite Forall_forall in Hns.
  destruct (CanPacketCallback uinput_fd msgs w) as [[] w'|st w'];
    cbn [world_of] in Htr.
  - destruct H as (w1 & (tr & Hu & Hm & Hacc) & Hs & Hsync).
    destruct (existsb frame_handled msgs).
    + destruct Hsync as (Hu' & Hs').
      rewrite Hu', Hu, <- app_assoc in Htr. apply app_inv_head in Htr.
      apply snoc_split in Htr as [(-> & [= -> ->] & ->)|Hin];
        [|now destruct (accepted_not_failed tr ev r)].
      split; [reflexivity|]. cbn [is_sync sync_event type ev_type_eqb].
      exists w'. split; [reflexivity|].
      cbv zeta in Hs'. rewrite Hu in Hs'.
      apply Z.ltb_lt in Hr. rewrite Hr in Hs'.
      now rewrite Hs', Hs, <- app_assoc.
    + subst w'. rewrite Hu in Htr. apply app_inv_head in Htr.
      destruct (accepted_not_failed tr ev r); try assumption.
      rewrite Htr. apply in_or_app. right. now left.
  - destruct H as (-> & pre0 & ev0 & r0 & suf & Hu & Hr0 & _ & Hacc & He).
    rewrite Hu in Htr. apply app_inv_head in Htr.
    apply snoc_split in Htr as [(-> & [= -> ->] & ->)|Hin];
      [|now destruct (accepted_not_failed pre0 ev r)].
    split; [reflexivity|].
    assert (Hd : is_sync ev0 = false).
    { apply Hns. rewrite He. apply in_or_app. right. now left. }
    rewrite Hd. exists w'. split; reflexivity.
Qed.

Lemma write_failure_severity_witness :
  (uinput (world_of
     (CanPacketCallback reject_all [brake_soft; throttle_half] world0))
   = uinput world0 ++ [] ++ [(mk_input_event EV_ABS ABS_BRAKE 32, -1)] /\
   -1 < 0 /\
   @nil (input_event * Z) = [] /\
   exists w',
     CanPacketCallback reject_all [brake_soft; throttle_half] world0
     = Exited (-1) w' /\
     exit_status (-1) = 255) /\
  (uinput (world_of (CanPacketCallback reject_sync [throttle_half] world0))
   = uinput world0 ++ [(mk_input_event EV_ABS ABS_GAS 128, 24)]
     ++ [(sync_event, -1)] /\
   -1 < 0 /\
   @nil (input_event * Z) = [] /\
   exists w',
     CanPacketCallback reject_sync [throttle_half] world0 = Returned tt w' /\
     stderr w'
     = stderr world0 ++ flat_map frame_diag [throttle_half] ++ [sync_failed]).
Proof.
  split.
  - split; [reflexivity|]. split; [lia|].
    apply (write_failure_severity reject_all [brake_soft; throttle_half]
             world0 [] [] (mk_input_event EV_ABS ABS_BRAKE 32) (-1));
      [reflexivity|lia].
  - split; [reflexivity|]. split; [lia|].
    apply (write_failure_severity reject_sync [throttle_half] world0
             [(mk_input_event EV_ABS ABS_GAS 128, 24)] [] sync_event (-1));
      [reflexivity|lia].
Defined.

(** The two outcomes on the sample frames. *)
Example data_write_rejected :
  CanPacketCallback reject_all [brake_soft; throttle_half] world0
  = Exited (-1)
      {| uinput := [(mk_input_event EV_ABS ABS_BRAKE 32, -1)];
         stderr := [FprintfErrno "Failed to write brake event: %d (%s)"] |}.
Proof. reflexivity. Qed.

Example sync_write_rejected :
  CanPacketCallback reject_sync [throttle_half] world0
  = Returned tt
      {| uinput := [(mk_input_event EV_ABS ABS_GAS 128, 24);
                    (sync_event, -1)];
         stderr := [sync_failed] |}.
Proof. reflexivity. Qed.

(** * Further properties of the handlers *)

Section Exits.

Variable uinput_fd : channel.

Lemma frame_diag_malformed (msg : usbcan_msg) :
  forallb is_malformed_diag (frame_diag msg) = true.
Proof.
  unfold frame_diag. cbv zeta.
  repeat match goal with
  | |- context [if ?b then _ else _] => destruct b
  end; reflexivity.
Qed.

Lemma batch_diag_malformed (msgs : list usbcan_msg) :
  forallb is_malformed_diag (flat_map frame_diag msgs) = true.
Proof.
  induction msgs as [|m l IH]; cbn; [reflexivity|].
  now rewrite forallb_app, frame_diag_malformed, IH.
Qed.

(** A handler that ends the process has printed one line, for the write
    that failed. *)
Lemma HandleCanMessage_exit_stderr (msg : usbcan_msg) (w w' : World)
  (st : Z) :
  HandleCanMessage uinput_fd msg w = Exited st w' ->
  exists l, stderr w' = stderr w ++ [l] /\ write_failure l = true.
Proof.
  unfold HandleCanMessage, HandleThrottlePos, HandleBrakePos,
    HandleSteeringPos, HandlePaddleShifter.
  cbv zeta.
  repeat match goal with
  | |- context [can_id (frame msg) =? ?k] =>
      destruct (can_id (frame msg) =? k)
  | |- context [can_dlc (frame msg) =? ?k] =>
      destruct (can_dlc (frame msg) =? k)
  end;
  unfold bind, write, fprintf, fprintf_errno, exit, ret; cbn;
  repeat match goal with
  | |- context [uinput_fd ?h ?e <? 0] =>
      destruct (uinput_fd h e <? 0); cbn
  end;
  intros H; try discriminate H; injection H as <- <-; cbn;
  eexists; split; reflexivity.
Qed.

End Exits.

Lemma frame_diag_length (msg : usbcan_msg) :
  List.length (frame_diag msg) = if malformed msg then 1%nat else 0%nat.
Proof.
  unfold frame_diag, malformed, declared_length, kThrottleId, kBrakeId,
    kSteeringId, kPaddleShifterId. cbv zeta.
  repeat match goal with
  | |- context [can_id (frame msg) =? ?k] =>
      destruct (can_id (frame msg) =? k)
  end;
  try match goal with
  | |- context [can_dlc (frame msg) =? ?k] =>
      destruct (can_dlc (frame msg) =? k)
  end; reflexivity.
Qed.

Lemma batch_diag_length (msgs : list usbcan_msg) :
  List.length (flat_map frame_diag msgs)
  = List.length (filter malformed msgs).
Proof.
  induction msgs as [|m l IH]; cbn; [reflexivity|].
  rewrite length_app, frame_diag_length, IH.
  now destruct (malformed m).
Qed.

(** Where the loop ends the process: after the frames it got through, in
    the handler of the next one. *)
Lemma CanPacketCallback_loop_exit_at (uinput_fd : channel)
  (msgs : list usbcan_msg) :
  forall (handled : bool) (w w' : World) (st : Z),
  CanPacketCallback_loop uinput_fd msgs handled w = Exited st w' ->
  exists done cur rest h1 w1,
    msgs = done ++ cur :: rest /\
    CanPacketCallback_loop uinput_fd done handled w = Returned h1 w1 /\
    HandleCanMessage uinput_fd cur w1 = Exited st w'.
Proof.
  induction msgs as [|msg l IH]; intros handled w w' st.
  - discriminate.
  - cbn [CanPacketCallback_loop]. unfold bind.
    destruct (HandleCanMessage uinput_fd msg w) as [h w0|st0 w0] eqn:Hm.
    + intros Hrest.
      destruct (IH _ _ _ _ Hrest)
        as (done & cur & rest & h1 & w1 & -> & Hdone & Hcur).
      exists (msg :: done), cur, rest, h1, w1. split; [reflexivity|].
      split; [|assumption].
      cbn [CanPacketCallback_loop]. unfold bind. now rewrite Hm.
    + intros [= <- <-]. exists [], msg, l, handled, w. now repeat split.
Qed.

(** X1: the callback ends the process only on a rejected axis or button
    write. When [CanPacketCallback] exits, the status is -1 and the batch
    splits into the frames it got through, the frame it stopped in and
    the frames it never reached. The writes of the call are all the events
    of the frames it got through and the first events of the frame it
    stopped in, each accepted, then one more event of that frame, not a
    sync marker, whose write was rejected and is the last. Stderr received
    the diagnostics of the frames it got through, one malformed-frame line
    per malformed frame among them, followed by one write-failure line. *)
Theorem exit_only_on_rejected_data (uinput_fd : channel)
  (msgs : list usbcan_msg) (w w' : World) (st : Z) :
  CanPacketCallback uinput_fd msgs w = Exited st w' ->
  st = -1 /\
  exists done cur rest pre pre_cur ev suf r lines l,
    msgs = done ++ cur :: rest /\
    uinput w' = uinput w ++ pre ++ [(ev, r)] /\
    r = uinput_fd (uinput w ++ pre) ev /\ r < 0 /\
    Forall accepted pre /\
    map fst pre = flat_map frame_events done ++ pre_cur /\
    frame_events cur = pre_cur ++ ev :: suf /\
    is_sync ev = false /\
    stderr w' = stderr w ++ lines ++ [l] /\
    lines = flat_map frame_diag done /\
    forallb is_malformed_diag lines = true /\
    List.length lines = List.length (filter malformed done) /\
    write_failure l = true.
Proof.
  unfold CanPacketCallback, bind. intros Hrun.
  destruct (CanPacketCallback_loop uinput_fd msgs false w)
    as [h w0|st0 w0] eqn:Hloop.
  { revert Hrun. destruct h; unfold write, fprintf_errno, ret; cbn;
      [destruct (_ <? 0)|]; discriminate. }
  injection Hrun as -> ->.
  destruct (CanPacketCallback_loop_exit_at _ _ _ _ _ _ Hloop)
    as (done & cur & rest & h1 & w1 & Hmsgs & Hdone & Hcur).
  pose proof (CanPacketCallback_loop_run uinput_fd done false w) as Hd.
  rewrite Hdone in Hd. destruct Hd as (_ & (tr0 & Hu0 & Hm0 & Ha0) & Hs0).
  pose proof (HandleCanMessage_run uinput_fd cur w1) as Hc.
  rewrite Hcur in Hc.
  destruct Hc as (-> & pre1 & ev & r & suf & Hu1 & Hr & Hans & Ha1 & He).
  destruct (HandleCanMessage_exit_stderr uinput_fd cur w1 w' (-1) Hcur)
    as (l & Hs1 & Hl).
  split; [reflexivity|].
  exists done, cur, rest, (tr0 ++ pre1), (map fst pre1), ev, suf, r,
    (flat_map frame_diag done), l.
  split; [assumption|].
  split; [now rewrite Hu1, Hu0, <- !app_assoc|].
  split; [now rewrite Hans, Hu0, <- app_assoc|].
  split; [assumption|].
  split; [apply Forall_app; now split|].
  split; [now rewrite map_app, Hm0|].
  split; [assumption|].
  split.
  { pose proof (frame_events_not_sync cur) as Hns.
    rewrite Forall_forall in Hns. apply Hns.
    rewrite He. apply in_or_app. right. now left. }
  split; [now rewrite Hs1, Hs0, <- app_assoc|].
  split; [reflexivity|].
  split; [apply batch_diag_malformed|].
  split; [apply batch_diag_length|assumption].
Qed.

Lemma exit_only_on_rejected_data_witness :
  CanPacketCallback reject_all [throttle_short; brake_soft; throttle_half]
    world0
  = Exited (-1) world_brake_rejected /\
  -1 = -1 /\
  exists done cur rest pre pre_cur ev suf r lines l,
    [throttle_short; brake_soft; throttle_half] = done ++ cur :: rest /\
    uinput world_brake_rejected = uinput world0 ++ pre ++ [(ev, r)] /\
    r = reject_all (uinput world0 ++ pre) ev /\ r < 0 /\
    Forall accepted pre /\
    map fst pre = flat_map frame_events done ++ pre_cur /\
    frame_events cur = pre_cur ++ ev :: suf /\
    is_sync ev = false /\
    stderr world_brake_rejected = stderr world0 ++ lines ++ [l] /\
    lines = flat_map frame_diag done /\
    forallb is_malformed_diag lines = true /\
    List.length lines = List.length (filter malformed done) /\
    write_failure l = true.
Proof.
  split; [reflexivity|].
  apply (exit_only_on_rejected_data reject_all
           [throttle_short; brake_soft; throttle_half] world0
           world_brake_rejected (-1)).
  reflexivity.
Defined.

(** X2: diagnostics are accounted for frame by frame. A callback that
    returns has printed as many malformed-frame lines as the batch has
    frames with a recognized identifier and a wrong length, and after
    them the sync failure line exactly when the sync write it made was
    rejected; it prints nothing else. *)
Theorem diagnostics_per_malformed_frame (uinput_fd : channel)
  (msgs : list usbcan_msg) (w w' : World) :
  CanPacketCallback uinput_fd msgs w = Returned tt w' ->
  exists lines tail tr,
    stderr w' = stderr w ++ lines ++ tail /\
    uinput w' = uinput w ++ tr /\
    forallb is_malformed_diag lines = true /\
    List.length lines = List.length (filter malformed msgs) /\
    (tail = [] \/ tail = [sync_failed]) /\
    (tail = [sync_failed] <->
     exists pre r, tr = pre ++ [(sync_event, r)] /\ r < 0).
Proof.
  intros Hrun. pose proof (CanPacketCallback_run uinput_fd msgs w) as H.
  rewrite Hrun in H.
  destruct H as (w1 & (tr & Hu & Hm & Hacc) & Hs & Hsync).
  exists (flat_map frame_diag msgs).
  pose proof (batch_diag_malformed msgs) as Hmal.
  pose proof (batch_diag_length msgs) as Hlen.
  destruct (existsb frame_handled msgs).
  - destruct Hsync as (Hu' & Hs'). cbv zeta in Hs'.
    set (r0 := uinput_fd (uinput w1) sync_event) in *.
    exists (if r0 <? 0 then [sync_failed] else []),
           (tr ++ [(sync_event, r0)]).
    split; [now rewrite Hs', Hs, <- app_assoc|].
    split; [now rewrite Hu', Hu, <- app_assoc|].
    split; [assumption|]. split; [assumption|].
    destruct (Z.ltb_spec r0 0) as [Hr|Hr].
    + split; [now right|]. split; [|reflexivity].
      intros _. now exists tr, r0.
    + split; [now left|]. split; [discriminate|].
      intros (pre & r & Hh & Hneg).
      apply app_inj_tail in Hh as [_ [= <-]]. lia.
  - subst w1. exists [], tr.
    split; [now rewrite Hs, app_nil_r|]. split; [assumption|].
    split; [assumption|]. split; [assumption|].
    split; [now left|]. split; [discriminate|].
    intros (pre & r & Hh & Hneg). exfalso.
    apply (accepted_not_failed tr sync_event r); try assumption.
    rewrite Hh. apply in_or_app. right. now left.
Qed.

Lemma diagnostics_per_malformed_frame_witness :
  CanPacketCallback reject_sync [throttle_short; unknown_frame; paddles_none]
    world0
  = Returned tt world_sync_rejected /\
  exists lines tail tr,
    stderr world_sync_rejected = stderr world0 ++ lines ++ tail /\
    uinput world_sync_rejected = uinput world0 ++ tr /\
    forallb is_malformed_diag lines = true /\
    List.length lines
    = List.length
        (filter malformed [throttle_short; unknown_frame; paddles_none]) /\
    (tail = [] \/ tail = [sync_failed]) /\
    (tail = [sync_failed] <->
     exists pre r, tr = pre ++ [(sync_event, r)] /\ r < 0).
Proof.
  split; [reflexivity|].
  apply (diagnostics_per_malformed_frame reject_sync
           [throttle_short; unknown_frame; paddles_none] world0
           world_sync_rejected).
  reflexivity.
Defined.

Lemma frame_events_length (msg : usbcan_msg) :
  (List.length (frame_events msg)
   <= if recognized msg then 2 else 0)%nat.
Proof.
  rewrite <- frame_handled_recognized.
  unfold frame_events, frame_handled. cbv zeta.
  repeat match goal with
  | |- context [can_id (frame msg) =? ?k] =>
      destruct (can_id (frame msg) =? k)
  end;
  try match goal with
  | |- context [can_dlc (frame msg) =? ?k] =>
      destruct (can_dlc (frame msg) =? k)
  end; cbn; lia.
Qed.

Lemma batch_events_length (msgs : list usbcan_msg) :
  (List.length (flat_map frame_events msgs)
   <= 2 * List.length (filter recognized msgs))%nat.
Proof.
  induction msgs as [|m l IH]; cbn [flat_map filter]; [cbn; lia|].
  rewrite length_app. generalize (frame_events_length m).
  destruct (recognized m); cbn [List.length]; lia.
Qed.

Lemma existsb_filter_nil {A : Type} (f : A -> bool) (l : list A) :
  filter f l = [] -> existsb f l = false.
Proof.
  induction l as [|x l IH]; cbn; [reflexivity|].
  destruct (f x); [discriminate|]. exact IH.
Qed.

(** X3: the output of a callback is bounded by the recognized frames of
    its batch. Whatever the descriptor answers and however the call ends,
    it submits at most two writes per recognized frame plus one for the
    sync marker, and none at all when no frame is recognized. *)
Theorem writes_bounded_by_batch (uinput_fd : channel)
  (msgs : list usbcan_msg) (w : World) (tr : list (input_event * Z)) :
  uinput (world_of (CanPacketCallback uinput_fd msgs w)) = uinput w ++ tr ->
  (List.length tr <= 2 * List.length (filter recognized msgs) + 1)%nat /\
  (filter recognized msgs = [] -> tr = []).
Proof.
  intros Htr.
  destruct (CanPacketCallback_events_prefix uinput_fd msgs w)
    as (evs & suf & Hu & Hp & _).
  unfold events_of in Hu. rewrite Htr, map_app in Hu.
  apply app_inv_head in Hu.
  assert (Hlen : List.length tr = List.length evs).
  { now rewrite <- Hu, length_map. }
  assert (Hle : (List.length evs
                 <= List.length (flat_map frame_events msgs
                      ++ (if existsb frame_handled msgs
                          then [sync_event] else [])))%nat).
  { rewrite Hp, length_app. lia. }
  rewrite length_app in Hle.
  pose proof (batch_events_length msgs) as Hb.
  rewrite existsb_handled_recognized in Hle.
  split.
  - destruct (existsb recognized msgs); cbn [List.length] in Hle; lia.
  - intros Hnone. rewrite (existsb_filter_nil _ _ Hnone) in Hle.
    rewrite Hnone in Hb. cbn [List.length] in Hle, Hb.
    destruct tr; [reflexivity|]. cbn [List.length] in Hlen. lia.
Qed.

Lemma writes_bounded_by_batch_witness :
  uinput (world_of
    (CanPacketCallback always_ok [paddles_both; unknown_frame; throttle_half]
       world_used))
  = uinput world_used
    ++ [(mk_input_event EV_KEY BTN_GEAR_UP 1, 24);
        (mk_input_event EV_KEY BTN_GEAR_DOWN 1, 24);
        (mk_input_event EV_ABS ABS_GAS 128, 24);
        (sync_event, 24)] /\
  (4 <= 2 * List.length
          (filter recognized [paddles_both; unknown_frame; throttle_half])
        + 1)%nat.
Proof.
  split; [reflexivity|].
  apply (writes_bounded_by_batch always_ok
           [paddles_both; unknown_frame; throttle_half] world_used
           [(mk_input_event EV_KEY BTN_GEAR_UP 1, 24);
            (mk_input_event EV_KEY BTN_GEAR_DOWN 1, 24);
            (mk_input_event EV_ABS ABS_GAS 128, 24);
            (sync_event, 24)]).
  reflexivity.
Defined.

(** X4: a handler reads only the payload bytes its decode rule names.
    Two frames with the same identifier and length that agree on those
    bytes (byte 6 for throttle, byte 1 for brake and paddles, bytes 1 and 2
    for steering, none otherwise) are handled identically: same writes,
    same diagnostics, same outcome. *)
Theorem unread_bytes_ignored (uinput_fd : channel) (m1 m2 : usbcan_msg)
  (w : World) :
  can_id (frame m1) = can_id (frame m2) ->
  can_dlc (frame m1) = can_dlc (frame m2) ->
  (forall i, In i (bytes_read (can_id (frame m1))) ->
             data_at m1 i = data_at m2 i) ->
  HandleCanMessage uinput_fd m1 w = HandleCanMessage uinput_fd m2 w.
Proof.
  intros Hid Hlen Hbytes.
  unfold HandleCanMessage, bytes_read in *. cbv zeta. rewrite <- Hid.
  destruct (can_id (frame m1) =? kThrottleId).
  { unfold HandleThrottlePos. rewrite <- Hlen.
    rewrite (Hbytes 6%nat) by (now left). reflexivity. }
  destruct (can_id (frame m1) =? kBrakeId).
  { unfold HandleBrakePos. rewrite <- Hlen.
    rewrite (Hbytes 1%nat) by (now left). reflexivity. }
  destruct (can_id (frame m1) =? kSteeringId).
  { unfold HandleSteeringPos. rewrite <- Hlen.
    rewrite (Hbytes 1%nat) by (now left).
    rewrite (Hbytes 2%nat) by (right; now left). reflexivity. }
  destruct (can_id (frame m1) =? kPaddleShifterId).
  { unfold HandlePaddleShifter. rewrite <- Hlen.
    rewrite (Hbytes 1%nat) by (now left). reflexivity. }
  reflexivity.
Qed.

Lemma unread_bytes_ignored_witness :
  can_id (frame steering_plus256) = can_id (frame steering_noise) /\
  can_dlc (frame steering_plus256) = can_dlc (frame steering_noise) /\
  (forall i, In i (bytes_read (can_id (frame steering_plus256))) ->
             data_at steering_plus256 i = data_at steering_noise i) /\
  HandleCanMessage reject_all steering_plus256 world_used
  = HandleCanMessage reject_all steering_noise world_used.
Proof.
  assert (H : forall i, In i (bytes_read (can_id (frame steering_plus256))) ->
                        data_at steering_plus256 i = data_at steering_noise i).
  { intros i [<-|[<-|[]]]; reflexivity. }
  split; [reflexivity|]. split; [reflexivity|]. split; [exact H|].
  exact (unread_bytes_ignored reject_all steering_plus256 steering_noise
           world_used eq_refl eq_refl H).
Defined.

Lemma be_int16_inj (h1 l1 h2 l2 : Z) :
  0 <= h1 < 256 -> 0 <= l1 < 256 -> 0 <= h2 < 256 -> 0 <= l2 < 256 ->
  be_int16 h1 l1 = be_int16 h2 l2 -> h1 = h2 /\ l1 = l2.
Proof.
  unfold be_int16. cbv zeta. intros Hh1 Hl1 Hh2 Hl2.
  destruct (Z.ltb_spec (256 * h1 + l1) 32768);
    destruct (Z.ltb_spec (256 * h2 + l2) 32768); lia.
Qed.

(** X5: steering decode loses nothing. Two well-formed steering frames
    that make the handler submit the same Wheel event carry the same
    bytes 1 and 2: the emitted value determines the raw 16-bit field. *)
Theorem steering_decode_injective (fd1 fd2 : channel) (m1 m2 : usbcan_msg)
  (w1 w2 : World) (ev : input_event) :
  wf_msg m1 -> wf_msg m2 ->
  steering_frame m1 = true -> steering_frame m2 = true ->
  events_of (world_of (HandleCanMessage fd1 m1 w1)) = events_of w1 ++ [ev] ->
  events_of (world_of (HandleCanMessage fd2 m2 w2)) = events_of w2 ++ [ev] ->
  data_at m1 1 = data_at m2 1 /\ data_at m1 2 = data_at m2 2.
Proof.
  intros Hwf1 Hwf2 Hs1 Hs2 He1 He2.
  rewrite (HandleCanMessage_single fd1 m1 w1 _
             (steering_frame_events m1 Hwf1 Hs1)) in He1.
  rewrite (HandleCanMessage_single fd2 m2 w2 _
             (steering_frame_events m2 Hwf2 Hs2)) in He2.
  apply app_inv_head in He1, He2.
  injection He1 as <-. injection He2 as He2.
  apply be_int16_inj; try (now apply wf_msg_byte).
  unfold steering_raw in He2. lia.
Qed.

Lemma steering_decode_injective_witness :
  wf_msg steering_plus256 /\ wf_msg steering_noise /\
  steering_frame steering_plus256 = true /\
  steering_frame steering_noise = true /\
  events_of (world_of (HandleCanMessage always_ok steering_plus256 world0))
  = events_of world0 ++ [mk_input_event EV_ABS ABS_WHEEL (-256)] /\
  events_of (world_of (HandleCanMessage reject_all steering_noise world_used))
  = events_of world_used ++ [mk_input_event EV_ABS ABS_WHEEL (-256)] /\
  data_at steering_plus256 1 = data_at steering_noise 1 /\
  data_at steering_plus256 2 = data_at steering_noise 2.
Proof.
  repeat (split; [reflexivity|]).
  apply (steering_decode_injective always_ok reject_all steering_plus256
           steering_noise world0 world_used
           (mk_input_event EV_ABS ABS_WHEEL (-256))); reflexivity.
Defined.

(** X6: the Wheel axis takes every value from -32767 to 32768. For each
    such value there is a well-formed steering frame on which the handler
    submits exactly that Wheel value; 32768, the image of raw -32768, is
    among them. *)
Theorem wheel_values_reached (uinput_fd : channel) (w : World) (v : Z) :
  -32767 <= v <= 32768 ->
  exists msg,
    wf_msg msg /\ steering_frame msg = true /\
    events_of (world_of (HandleCanMessage uinput_fd msg w))
    = events_of w ++ [mk_input_event EV_ABS ABS_WHEEL v].
Proof.
  intros Hv.
  destruct (steering_raw_onto (- v)) as (msg & Hwf & Hs & Hraw); [lia|].
  exists msg. split; [assumption|]. split; [assumption|].
  rewrite (HandleCanMessage_single uinput_fd msg w _
             (steering_frame_events msg Hwf Hs)).
  rewrite Hraw. now rewrite Z.opp_involutive.
Qed.

Lemma wheel_values_reached_witness :
  -32767 <= 32768 <= 32768 /\
  exists msg,
    wf_msg msg /\ steering_frame msg = true /\
    events_of (world_of (HandleCanMessage always_ok msg world0))
    = events_of world0 ++ [mk_input_event EV_ABS ABS_WHEEL 32768].
Proof.
  split; [lia|].
  apply (wheel_values_reached always_ok world0 32768). lia.
Defined.

(** * Splitting a batch *)

Lemma filter_is_data_events (evs : list input_event) :
  Forall (fun ev => is_sync ev = false) evs -> filter is_data evs = evs.
Proof.
  induction 1 as [|ev l Hev _ IH]; cbn; [reflexivity|].
  unfold is_data at 1. now rewrite Hev, IH.
Qed.

Lemma filter_is_data_batch (msgs : list usbcan_msg) (b : bool) :
  filter is_data
    (flat_map frame_events msgs ++ (if b then [sync_event] else []))
  = flat_map frame_events msgs.
Proof.
  rewrite filter_app, (filter_is_data_events _ (batch_events_not_sync msgs)).
  destruct b; cbn; now rewrite app_nil_r.
Qed.

Lemma sync_count_batch (msgs : list usbcan_msg) (b : bool) :
  sync_count
    (flat_map frame_events msgs ++ (if b then [sync_event] else []))
  = if b then 1%nat else 0%nat.
Proof.
  unfold sync_count. rewrite filter_app, length_app.
  fold (sync_count (flat_map frame_events msgs)).
  rewrite (sync_count_none _ (batch_events_not_sync msgs)).
  now destruct b.
Qed.

(** X7: delivering a batch in two callbacks instead of one changes only
    the sync markers. If the callback returns on [a], then on [b], and
    also on [a ++ b] delivered at once, the axis and button events are the
    same in the same order; the split delivery has one sync marker per
    part that holds a recognized frame, the single delivery has one if
    either part does. *)
Theorem split_batch_same_data (fd fd' : channel) (a b : list usbcan_msg)
  (w w1 w2 w0 w3 : World) :
  CanPacketCallback fd a w = Returned tt w1 ->
  CanPacketCallback fd b w1 = Returned tt w2 ->
  CanPacketCallback fd' (a ++ b) w0 = Returned tt w3 ->
  exists split joint,
    events_of w2 = events_of w ++ split /\
    events_of w3 = events_of w0 ++ joint /\
    filter is_data split = filter is_data joint /\
    sync_count split
    = ((if existsb recognized a then 1 else 0)
       + (if existsb recognized b then 1 else 0))%nat /\
    sync_count joint
    = (if existsb recognized a || existsb recognized b then 1 else 0)%nat.
Proof.
  intros Ha Hb Hab.
  apply CanPacketCallback_returned_events in Ha, Hb, Hab.
  rewrite !existsb_handled_recognized in *.
  rewrite existsb_app, flat_map_app in Hab.
  eexists _, _. split; [|split; [exact Hab|]].
  - rewrite Hb, Ha, <- app_assoc. reflexivity.
  - split; [|split].
    + rewrite filter_app, !filter_is_data_batch.
      now rewrite <- flat_map_app, filter_is_data_batch.
    + unfold sync_count. rewrite filter_app, length_app.
      fold (sync_count (flat_map frame_events a
              ++ (if existsb recognized a then [sync_event] else []))).
      fold (sync_count (flat_map frame_events b
              ++ (if existsb recognized b then [sync_event] else []))).
      now rewrite !sync_count_batch.
    + rewrite <- flat_map_app. apply sync_count_batch.
Qed.

Lemma split_batch_same_data_witness :
  CanPacketCallback always_ok [throttle_half] world0
  = Returned tt
      {| uinput := [(mk_input_event EV_ABS ABS_GAS 128, 24);
                    (sync_event, 24)];
         stderr := [] |} /\
  CanPacketCallback always_ok [brake_soft]
    {| uinput := [(mk_input_event EV_ABS ABS_GAS 128, 24); (sync_event, 24)];
       stderr := [] |}
  = Returned tt
      {| uinput := [(mk_input_event EV_ABS ABS_GAS 128, 24);
                    (sync_event, 24);
                    (mk_input_event EV_ABS ABS_BRAKE 32, 24);
                    (sync_event, 24)];
         stderr := [] |} /\
  CanPacketCallback always_ok ([throttle_half] ++ [brake_soft]) world0
  = Returned tt
      {| uinput := [(mk_input_event EV_ABS ABS_GAS 128, 24);
                    (mk_input_event EV_ABS ABS_BRAKE 32, 24);
                    (sync_event, 24)];
         stderr := [] |} /\
  exists split joint,
    [mk_input_event EV_ABS ABS_GAS 128; sync_event;
     mk_input_event EV_ABS ABS_BRAKE 32; sync_event]
    = events_of world0 ++ split /\
    [mk_input_event EV_ABS ABS_GAS 128; mk_input_event EV_ABS ABS_BRAKE 32;
     sync_event]
    = events_of world0 ++ joint /\
    filter is_data split = filter is_data joint /\
    sync_count split = 2%nat /\ sync_count joint = 1%nat.
Proof.
  repeat (split; [reflexivity|]).
  apply (split_batch_same_data always_ok always_ok [throttle_half]
           [brake_soft] world0
           {| uinput := [(mk_input_event EV_ABS ABS_GAS 128, 24);
                         (sync_event, 24)];
              stderr := [] |}
           {| uinput := [(mk_input_event EV_ABS ABS_GAS 128, 24);
                         (sync_event, 24);
                         (mk_input_event EV_ABS ABS_BRAKE 32, 24);
                         (sync_event, 24)];
              stderr := [] |}
           world0
           {| uinput := [(mk_input_event EV_ABS ABS_GAS 128, 24);
                         (mk_input_event EV_ABS ABS_BRAKE 32, 24);
                         (sync_event, 24)];
              stderr := [] |}); reflexivity.
Defined.

(** * Bytes beyond the length code, bits beyond the paddles *)

(** X8: bytes at or beyond a frame's length code never reach the
    device. Two frames with the same identifier and length code whose
    payloads agree below that length are handled identically, whatever
    the rest of the eight-byte buffer holds. *)
Theorem stale_bytes_ignored (uinput_fd : channel) (m1 m2 : usbcan_msg)
  (w : World) :
  can_id (frame m1) = can_id (frame m2) ->
  can_dlc (frame m1) = can_dlc (frame m2) ->
  (forall i, Z.of_nat i < can_dlc (frame m1) ->
             data_at m1 i = data_at m2 i) ->
  HandleCanMessage uinput_fd m1 w = HandleCanMessage uinput_fd m2 w.
Proof.
  intros Hid Hlen Hbytes.
  unfold HandleCanMessage. cbv zeta. rewrite <- Hid.
  destruct (can_id (frame m1) =? kThrottleId).
  { unfold HandleThrottlePos. rewrite <- Hlen.
    destruct (Z.eqb_spec (can_dlc (frame m1)) 7) as [E|_]; [|reflexivity].
    rewrite (Hbytes 6%nat) by (rewrite E; reflexivity). reflexivity. }
  destruct (can_id (frame m1) =? kBrakeId).
  { unfold HandleBrakePos. rewrite <- Hlen.
    destruct (Z.eqb_spec (can_dlc (frame m1)) 6) as [E|_]; [|reflexivity].
    rewrite (Hbytes 1%nat) by (rewrite E; reflexivity). reflexivity. }
  destruct (can_id (frame m1) =? kSteeringId).
  { unfold HandleSteeringPos. rewrite <- Hlen.
    destruct (Z.eqb_spec (can_dlc (frame m1)) 8) as [E|_]; [|reflexivity].
    rewrite (Hbytes 1%nat) by (rewrite E; reflexivity).
    rewrite (Hbytes 2%nat) by (rewrite E; reflexivity). reflexivity. }
  destruct (can_id (frame m1) =? kPaddleShifterId).
  { unfold HandlePaddleShifter. rewrite <- Hlen.
    destruct (Z.eqb_spec (can_dlc (frame m1)) 3) as [E|_]; [|reflexivity].
    rewrite (Hbytes 1%nat) by (rewrite E; reflexivity). reflexivity. }
  reflexivity.
Qed.

Lemma stale_bytes_ignored_witness :
  can_id (frame paddles_both) = can_id (frame paddles_stale) /\
  can_dlc (frame paddles_both) = can_dlc (frame paddles_stale) /\
  (forall i, Z.of_nat i < can_dlc (frame paddles_both) ->
             data_at paddles_both i = data_at paddles_stale i) /\
  HandleCanMessage always_ok paddles_both world0
  = HandleCanMessage always_ok paddles_stale world0.
Proof.
  assert (H : forall i, Z.of_nat i < can_dlc (frame paddles_both) ->
                        data_at paddles_both i = data_at paddles_stale i).
  { intros i Hi. cbn in Hi.
    destruct i as [|[|[|i]]]; [reflexivity|reflexivity|reflexivity|lia]. }
  split; [reflexivity|]. split; [reflexivity|]. split; [exact H|].
  exact (stale_bytes_ignored always_ok paddles_both paddles_stale world0
           eq_refl eq_refl H).
Defined.

Lemma land3_bit (d1 d2 k : Z) :
  0 <= k < 2 -> Z.land d1 3 = Z.land d2 3 -> Z.testbit d1 k = Z.testbit d2 k.
Proof.
  intros Hk H3.
  assert (Hb : forall d, Z.testbit (Z.land d 3) k = Z.testbit d k).
  { intros d. rewrite Z.land_spec.
    replace (Z.testbit 3 k) with true; [apply andb_true_r|].
    assert (k = 0 \/ k = 1) as [-> | ->] by lia; reflexivity. }
  now rewrite <- (Hb d1), <- (Hb d2), H3.
Qed.

(** X9: the paddle handler looks at the two low bits of byte 1 only.
    Two paddle-shifter frames of length 3 whose bytes 1 agree on bits 0
    and 1 are handled identically; the six upper bits never matter. *)
Theorem paddle_upper_bits_ignored (uinput_fd : channel) (m1 m2 : usbcan_msg)
  (w : World) :
  can_id (frame m1) = 0x01f3 -> can_id (frame m2) = 0x01f3 ->
  can_dlc (frame m1) = 3 -> can_dlc (frame m2) = 3 ->
  Z.land (data_at m1 1) 3 = Z.land (data_at m2 1) 3 ->
  HandleCanMessage uinput_fd m1 w = HandleCanMessage uinput_fd m2 w.
Proof.
  intros Hid1 Hid2 Hl1 Hl2 Hbits.
  unfold HandleCanMessage. cbv zeta. rewrite Hid1, Hid2.
  cbn [Z.eqb Pos.eqb kThrottleId kBrakeId kSteeringId kPaddleShifterId].
  unfold HandlePaddleShifter. rewrite Hl1, Hl2. cbn [Z.eqb Pos.eqb].
  cbv zeta. cbn [type].
  rewrite !up_pressed_bit, !down_pressed_bit.
  rewrite (land3_bit _ _ 0 ltac:(lia) Hbits).
  rewrite (land3_bit _ _ 1 ltac:(lia) Hbits).
  reflexivity.
Qed.

Lemma paddle_upper_bits_ignored_witness :
  can_id (frame paddles_both) = 0x01f3 /\
  can_id (frame paddles_high_bits) = 0x01f3 /\
  can_dlc (frame paddles_both) = 3 /\
  can_dlc (frame paddles_high_bits) = 3 /\
  Z.land (data_at paddles_both 1) 3
  = Z.land (data_at paddles_high_bits 1) 3 /\
  HandleCanMessage reject_sync paddles_both world_used
  = HandleCanMessage reject_sync paddles_high_bits world_used.
Proof.
  repeat (split; [reflexivity|]).
  apply (paddle_upper_bits_ignored reject_sync paddles_both
           paddles_high_bits world_used); reflexivity.
Defined.

(** * Start-up *)

Section StartupRuns.

Variable env : kernel.

Lemma sys_inv (c : syscall) (b b' : Boot) (r : Z) :
  sys env c b = (r, b') ->
  calls b' = calls b ++ [(c, r)] /\ console b' = console b.
Proof. unfold sys. now intros [= <- <-]. Qed.

(** Take the next call of a run: name its result and the state it
    leaves, and keep what it appended. *)
Ltac next_call H :=
  match type of H with
  | context [sys env ?c ?b] =>
      let r := fresh "r" in
      let b' := fresh "b" in
      let E := fresh "E" in
      let Ec := fresh "Ec" in
      let Es := fresh "Es" in
      destruct (sys env c b) as [r b'] eqn:E;
      apply sys_inv in E; destruct E as [Ec Es]
  end.

Ltac calls_of_run :=
  cbn [say calls console];
  repeat match goal with
  | Ec : calls ?b = _ |- context [calls ?b] => rewrite Ec
  | Es : console ?b = _ |- context [console ?b] => rewrite Es
  end;
  rewrite <- ?app_assoc; cbn [app].

Ltac all_ok :=
  repeat constructor; cbn [snd fst call_ok];
  try lia; try (apply Z.leb_le; lia).

(** [InitUinputDevice] walks through its nine requests in order and
    stops at the first one the kernel refuses. *)
Lemma InitUinputDevice_run (fd : Z) (b b' : Boot) (ok : bool) :
  InitUinputDevice env fd b = (ok, b') ->
  exists tr,
    calls b' = calls b ++ tr /\
    if ok then
      map fst tr = init_requests fd /\
      Forall (fun p => 0 <= snd p /\ call_ok p = true) tr /\
      console b' = console b
    else
      exists pre c r l n,
        tr = pre ++ [(c, r)] /\ r < 0 /\ call_ok (c, r) = false /\
        Forall (fun p => 0 <= snd p /\ call_ok p = true) pre /\
        map fst tr = firstn n (init_requests fd) /\ (n <= 9)%nat /\
        console b' = console b ++ [l] /\
        startup_failure l = true.
Proof.
  unfold InitUinputDevice. intros H.
  repeat (next_call H;
          match type of H with
          | context [?r <? 0] => destruct (Z.ltb_spec r 0)
          end;
          [injection H as <- <-; eexists; split; [calls_of_run; reflexivity|]
          |]).
  1: eexists [], _, _, _, 1%nat.
  2: eexists [_], _, _, _, 2%nat.
  3: eexists [_; _], _, _, _, 3%nat.
  4: eexists [_; _; _], _, _, _, 4%nat.
  5: eexists [_; _; _; _], _, _, _, 5%nat.
  6: eexists [_; _; _; _; _], _, _, _, 6%nat.
  7: eexists [_; _; _; _; _; _], _, _, _, 7%nat.
  8: eexists [_; _; _; _; _; _; _], _, _, _, 8%nat.
  9: eexists [_; _; _; _; _; _; _; _], _, _, _, 9%nat.
  1-9: cbn [app]; (split; [reflexivity|]); (split; [assumption|]);
       (split; [now apply Z.leb_gt|]);
       (split; [all_ok|]); (split; [reflexivity|]); (split; [lia|]);
       calls_of_run; split; reflexivity.
  injection H as <- <-. eexists. split; [calls_of_run; reflexivity|].
  split; [reflexivity|]. split; [all_ok|]. now calls_of_run.
Qed.

Lemma to_bool_call (r : Z) : to_bool r = negb (r =? 0).
Proof. reflexivity. Qed.

Lemma firstn_main_requests (fd : Z) (n : nat) :
  (n <= 9)%nat ->
  firstn (S n) (main_requests fd)
  = c_open "/dev/uinput" [O_WRONLY; O_NONBLOCK]
    :: firstn n (init_requests fd).
Proof.
  intros Hn. unfold main_requests. cbn [firstn]. f_equal.
  rewrite firstn_app.
  replace (n - List.length (init_requests fd))%nat with 0%nat
    by (cbn [init_requests List.length]; lia).
  cbn [firstn]. now rewrite app_nil_r.
Qed.

(** [main] from start to return: either the whole start-up sequence went
    through, or it stopped at the first call that failed. *)
Lemma main_run (b b' : Boot) (code : Z) :
  main env b = (code, b') ->
  exists tr lines,
    calls b' = calls b ++ tr /\
    console b' = console b ++ Fprintf "can-joystick" :: lines /\
    ((code = 0 /\ lines = [] /\
      exists fd rest,
        0 <= fd /\
        tr = (c_open "/dev/uinput" [O_WRONLY; O_NONBLOCK], fd) :: rest /\
        map fst tr = main_requests fd /\
        Forall (fun p => call_ok p = true) tr)
     \/
     (code = -1 /\
      exists pre c r n fd l,
        tr = pre ++ [(c, r)] /\ call_ok (c, r) = false /\
        Forall (fun p => call_ok p = true) pre /\
        map fst tr = firstn n (main_requests fd) /\ (n <= 13)%nat /\
        lines = [l] /\ startup_failure l = true)).
Proof.
  unfold main. intros H.
  next_call H. cbn [say calls console] in Ec, Es.
  destruct (Z.ltb_spec r 0) as [Hfd|Hfd].
  { injection H as <- <-. eexists _, _.
    split; [calls_of_run; reflexivity|].
    split; [calls_of_run; reflexivity|].
    right. split; [reflexivity|].
    eexists [], _, _, 1%nat, r, _. cbn [app].
    split; [reflexivity|]. split; [now apply Z.leb_gt|].
    split; [constructor|]. split; [reflexivity|]. split; [lia|].
    split; reflexivity. }
  destruct (InitUinputDevice env r b0) as [ok b1] eqn:Hinit.
  apply InitUinputDevice_run in Hinit. destruct Hinit as (ti & Hci & Hinit).
  destruct ok; cbn [negb] in H.
  2:{ injection H as <- <-.
      destruct Hinit as (pre & c & r0 & l & n & -> & Hr0 & Hbad & Hpre
                         & Hmap & Hn & Hcon & Hl).
      exists ((c_open "/dev/uinput" [O_WRONLY; O_NONBLOCK], r)
              :: pre ++ [(c, r0)]), [l].
      split; [now rewrite Hci, Ec, <- app_assoc|].
      split; [now rewrite Hcon, Es, <- app_assoc|].
      right. split; [reflexivity|].
      exists ((c_open "/dev/uinput" [O_WRONLY; O_NONBLOCK], r) :: pre),
        c, r0, (S n), r, l.
      split; [reflexivity|]. split; [assumption|].
      split.
      { constructor; [cbn; apply Z.leb_le; lia|].
        eapply Forall_impl; [|exact Hpre]. now intros p [_ Hp]. }
      split; [cbn [map fst]; now rewrite Hmap, firstn_main_requests|].
      split; [lia|]. now split. }
  destruct Hinit as (Hmap & Hok & Hcon).
  assert (Hok' : Forall (fun p => call_ok p = true) ti).
  { eapply Forall_impl; [|exact Hok]. now intros p [_ Hp]. }
  assert (Hhead : Forall (fun p => call_ok p = true)
            ((c_open "/dev/uinput" [O_WRONLY; O_NONBLOCK], r) :: ti)).
  { constructor; [cbn; apply Z.leb_le; lia|assumption]. }
  next_call H. rewrite to_bool_call in H.
  destruct (negb (r0 =? 0)) eqn:Hlib; cbn [negb] in H.
  2:{ injection H as <- <-. eexists _, _.
      split; [calls_of_run; reflexivity|].
      split; [calls_of_run; reflexivity|].
      right. split; [reflexivity|].
      eexists (_ :: ti), _, _, 11%nat, r, _. cbn [app].
      split; [reflexivity|]. split; [exact Hlib|].
      split; [exact Hhead|].
      split; [cbn [map fst]; rewrite map_app, Hmap; reflexivity|].
      split; [lia|]. split; reflexivity. }
  next_call H. rewrite to_bool_call in H.
  destruct (negb (r1 =? 0)) eqn:Hbus; cbn [negb] in H.
  2:{ injection H as <- <-. eexists _, _.
      split; [calls_of_run; reflexivity|].
      split; [calls_of_run; reflexivity|].
      right. split; [reflexivity|].
      eexists (_ :: ti ++ [_]), _, _, 12%nat, r, _. cbn [app].
      split; [now rewrite <- app_assoc|]. split; [exact Hbus|].
      split.
      { rewrite app_comm_cons. apply Forall_app. split; [exact Hhead|].
        repeat constructor. exact Hlib. }
      split; [cbn [map fst]; rewrite !map_app, Hmap; reflexivity|].
      split; [lia|]. split; reflexivity. }
  next_call H. rewrite to_bool_call in H.
  destruct (negb (r2 =? 0)) eqn:Hstart; cbn [negb] in H.
  2:{ injection H as <- <-. eexists _, _.
      split; [calls_of_run; reflexivity|].
      split; [calls_of_run; reflexivity|].
      right. split; [reflexivity|].
      eexists (_ :: ti ++ [_; _]), _, _, 13%nat, r, _. cbn [app].
      split; [now rewrite <- app_assoc|]. split; [exact Hstart|].
      split.
      { rewrite app_comm_cons. apply Forall_app. split; [exact Hhead|].
        repeat constructor; assumption. }
      split; [cbn [map fst]; rewrite !map_app, Hmap; reflexivity|].
      split; [lia|]. split; reflexivity. }
  next_call H. next_call H. injection H as <- <-. eexists _, [].
  split; [calls_of_run; reflexivity|].
  split; [calls_of_run; reflexivity|].
  left. split; [reflexivity|]. split; [reflexivity|].
  eexists r, _. split; [assumption|]. cbn [app].
  split; [reflexivity|].
  split; [cbn [map fst]; rewrite !map_app, Hmap; reflexivity|].
  rewrite app_comm_cons. apply Forall_app. split; [exact Hhead|].
  repeat constructor; assumption.
Qed.

End StartupRuns.

(** X10: [InitUinputDevice] stops at the first refusal. The calls it makes
    are an initial part of its nine requests, in source order: the two
    event types, the three axes and the two buttons, then the descriptor
    write, then device creation. It returns true exactly when none was
    refused, and then it has made all nine and printed nothing; otherwise
    the refused call is the last one it made and it has printed one
    failure line. *)
Theorem init_stops_at_first_refusal (env : kernel) (fd : Z) (b b' : Boot)
  (ok : bool) :
  InitUinputDevice env fd b = (ok, b') ->
  exists tr n,
    calls b' = calls b ++ tr /\
    map fst tr = firstn n (init_requests fd) /\ (n <= 9)%nat /\
    (ok = true <-> Forall (fun p => 0 <= snd p) tr) /\
    (ok = true -> n = 9%nat /\ console b' = console b) /\
    (ok = false ->
     exists pre c r l,
       tr = pre ++ [(c, r)] /\ r < 0 /\
       Forall (fun p => 0 <= snd p) pre /\
       console b' = console b ++ [l] /\ startup_failure l = true).
Proof.
  intros Hrun. apply InitUinputDevice_run in Hrun.
  destruct Hrun as (tr & Hc & Hrun). exists tr.
  destruct ok.
  - destruct Hrun as (Hmap & Hok & Hcon). exists 9%nat.
    split; [assumption|]. split; [now rewrite Hmap|]. split; [lia|].
    split; [|split; [now split|discriminate]].
    split; [|reflexivity]. intros _.
    eapply Forall_impl; [|exact Hok]. now intros p [Hp _].
  - destruct Hrun as (pre & c & r & l & n & -> & Hr & _ & Hpre & Hmap & Hn
                      & Hcon & Hl).
    assert (Hpre' : Forall (fun p => 0 <= snd p) pre).
    { eapply Forall_impl; [|exact Hpre]. now intros p [Hp _]. }
    exists n. split; [assumption|]. split; [assumption|].
    split; [assumption|]. split; [|split; [discriminate|]].
    + split; [discriminate|]. intros Hall.
      apply Forall_app in Hall as [_ Hlast].
      inversion Hlast as [|p q Hp _]; subst. cbn in Hp. lia.
    + intros _. now exists pre, c, r, l.
Qed.

Lemma init_stops_at_first_refusal_witness :
  InitUinputDevice kernel_no_write 3 boot0 = (false, boot_init_no_write) /\
  exists tr n,
    calls boot_init_no_write = calls boot0 ++ tr /\
    map fst tr = firstn n (init_requests 3) /\ (n <= 9)%nat /\
    (false = true <-> Forall (fun p => 0 <= snd p) tr) /\
    (false = true -> n = 9%nat /\ console boot_init_no_write = console boot0) /\
    (false = false ->
     exists pre c r l,
       tr = pre ++ [(c, r)] /\ r < 0 /\
       Forall (fun p => 0 <= snd p) pre /\
       console boot_init_no_write = console boot0 ++ [l] /\
       startup_failure l = true).
Proof.
  split; [reflexivity|].
  apply (init_stops_at_first_refusal kernel_no_write 3 boot0
           boot_init_no_write false).
  reflexivity.
Defined.

Example init_refused_descriptor :
  calls boot_init_no_write
  = [(c_ioctl 3 (UI_SET_EVBIT EV_ABS), 1);
     (c_ioctl 3 (UI_SET_ABSBIT ABS_WHEEL), 1);
     (c_ioctl 3 (UI_SET_ABSBIT ABS_GAS), 1);
     (c_ioctl 3 (UI_SET_ABSBIT ABS_BRAKE), 1);
     (c_ioctl 3 (UI_SET_EVBIT EV_KEY), 1);
     (c_ioctl 3 (UI_SET_KEYBIT BTN_GEAR_UP), 1);
     (c_ioctl 3 (UI_SET_KEYBIT BTN_GEAR_DOWN), 1);
     (c_write 3 written_image, -1)] /\
  console boot_init_no_write
  = [FprintfErrno "Failed to write uinput descriptor: %d (%s)"].
Proof. split; reflexivity. Qed.

Lemma frame_events_codes (msg : usbcan_msg) (ev : input_event) :
  In ev (frame_events msg) ->
  (type ev = EV_ABS /\ In (code ev) [ABS_WHEEL; ABS_GAS; ABS_BRAKE])
  \/ (type ev = EV_KEY /\ In (code ev) [BTN_GEAR_UP; BTN_GEAR_DOWN]).
Proof.
  unfold frame_events. cbv zeta.
  repeat match goal with
  | |- context [if ?b then _ else _] => destruct b
  end; cbn [In]; intros Hin;
  repeat match goal with
  | H : _ \/ _ |- _ => destruct H as [H|H]
  | H : False |- _ => destruct H
  end; subst ev; cbn; tauto.
Qed.

Lemma enabled_of_init (tr : list (syscall * Z)) (pre : list (syscall * Z))
  (fd : Z) (req : uinput_ioctl) :
  map fst tr = init_requests fd ->
  Forall (fun p => 0 <= snd p /\ call_ok p = true) tr ->
  In (c_ioctl fd req) (init_requests fd) ->
  enabled (pre ++ tr) fd req.
Proof.
  intros Hmap Hok Hin. rewrite <- Hmap in Hin.
  apply in_map_iff in Hin as ([c r] & Hc & Hin). cbn in Hc. subst c.
  exists r. split; [apply in_or_app; now right|].
  rewrite Forall_forall in Hok. now destruct (Hok _ Hin).
Qed.

(** X11: the handlers emit only what the device was set up for. After a
    successful [InitUinputDevice] on a descriptor, every event a callback
    submits is either the sync marker or an axis or button event whose
    type and whose code were both enabled on that descriptor by a request
    that succeeded. *)
Theorem emitted_events_set_up (env : kernel) (fd : Z) (b b' : Boot)
  (uinput_fd : channel) (msgs : list usbcan_msg) (w : World)
  (evs : list input_event) (ev : input_event) :
  InitUinputDevice env fd b = (true, b') ->
  events_of (world_of (CanPacketCallback uinput_fd msgs w))
    = events_of w ++ evs ->
  In ev evs ->
  ev = sync_event \/ set_up_for (calls b') fd ev.
Proof.
  intros Hinit Hrun Hin.
  apply InitUinputDevice_run in Hinit.
  destruct Hinit as (tr & -> & Hmap & Hok & _).
  destruct (CanPacketCallback_events_prefix uinput_fd msgs w)
    as (evs' & suf & Hu & Hp & _).
  rewrite Hu in Hrun. apply app_inv_head in Hrun. subst evs'.
  assert (Hall : In ev (flat_map frame_events msgs
                  ++ (if existsb frame_handled msgs
                      then [sync_event] else []))).
  { rewrite Hp. apply in_or_app. now left. }
  apply in_app_or in Hall as [Hdata|Hsync].
  - right. apply in_flat_map in Hdata as (msg & _ & Hev).
    pose proof (enabled_of_init tr (calls b) fd) as Hen.
    specialize (fun req => Hen req Hmap Hok).
    unfold set_up_for.
    destruct (frame_events_codes msg ev Hev) as [[-> Hc]|[-> Hc]];
      (split; [apply Hen; cbn; tauto|]);
      cbn [In] in Hc;
      repeat match goal with
      | H : _ \/ _ |- _ => destruct H as [H|H]
      | H : False |- _ => destruct H
      end; rewrite <- Hc; apply Hen; cbn; tauto.
  - left. destruct (existsb frame_handled msgs); cbn in Hsync;
      [now destruct Hsync|contradiction].
Qed.

Lemma emitted_events_set_up_witness :
  InitUinputDevice kernel_ok 3 boot0 = (true, boot_init_ok) /\
  events_of (world_of (CanPacketCallback always_ok [paddles_both] world0))
  = events_of world0
    ++ [mk_input_event EV_KEY BTN_GEAR_UP 1;
        mk_input_event EV_KEY BTN_GEAR_DOWN 1; sync_event] /\
  (mk_input_event EV_KEY BTN_GEAR_DOWN 1 = sync_event
   \/ set_up_for (calls boot_init_ok) 3
        (mk_input_event EV_KEY BTN_GEAR_DOWN 1)).
Proof.
  split; [reflexivity|]. split; [reflexivity|].
  apply (emitted_events_set_up kernel_ok 3 boot0 boot_init_ok always_ok
           [paddles_both] world0
           [mk_input_event EV_KEY BTN_GEAR_UP 1;
            mk_input_event EV_KEY BTN_GEAR_DOWN 1; sync_event]
           (mk_input_event EV_KEY BTN_GEAR_DOWN 1));
    [reflexivity|reflexivity|cbn; tauto].
Defined.

Lemma early_requests (fd : Z) (n : nat) :
  (n <= 13)%nat ->
  ~ In c_pause (firstn n (main_requests fd)) /\
  ~ In c_usbcan_library_close (firstn n (main_requests fd)).
Proof.
  intros Hn.
  do 14 (destruct n as [|n];
         [cbn; split; intros H;
          repeat (destruct H as [H|H]; [discriminate H|]); exact H|]).
  lia.
Qed.

(** X12: a start-up failure makes [main] return -1 at once. Whenever
    [main] returns a non-zero value, that value is -1 (exit status 255);
    the last call it made is the one that failed, every call before it
    succeeded, and stderr holds the banner followed by one failure line.
    It has neither reached [pause] nor called [usbcan_library_close]. *)
Theorem main_fails_fast (env : kernel) (b b' : Boot) (code : Z) :
  main env b = (code, b') ->
  code <> 0 ->
  code = -1 /\ exit_status code = 255 /\
  exists pre c r l,
    calls b' = calls b ++ pre ++ [(c, r)] /\
    call_ok (c, r) = false /\
    Forall (fun p => call_ok p = true) pre /\
    ~ In c_pause (map fst (pre ++ [(c, r)])) /\
    ~ In c_usbcan_library_close (map fst (pre ++ [(c, r)])) /\
    console b' = console b ++ [Fprintf "can-joystick"; l] /\
    startup_failure l = true.
Proof.
  intros Hrun Hcode. apply main_run in Hrun.
  destruct Hrun as (tr & lines & Hc & Hcon & [(H0 & _)|(Hm1 & Hfail)]);
    [contradiction|].
  destruct Hfail as (pre & c & r & n & fd & l & -> & Hbad & Hpre & Hmap
                     & Hn & -> & Hl).
  subst code. split; [reflexivity|]. split; [reflexivity|].
  exists pre, c, r, l.
  destruct (early_requests fd n Hn) as (Hp & Hcl).
  rewrite Hmap. now repeat split.
Qed.

Lemma main_fails_fast_witness :
  main kernel_no_bus boot0 = (-1, boot_main_no_bus) /\
  -1 <> 0 /\
  -1 = -1 /\ exit_status (-1) = 255 /\
  exists pre c r l,
    calls boot_main_no_bus = calls boot0 ++ pre ++ [(c, r)] /\
    call_ok (c, r) = false /\
    Forall (fun p => call_ok p = true) pre /\
    ~ In c_pause (map fst (pre ++ [(c, r)])) /\
    ~ In c_usbcan_library_close (map fst (pre ++ [(c, r)])) /\
    console boot_main_no_bus = console boot0 ++ [Fprintf "can-joystick"; l] /\
    startup_failure l = true.
Proof.
  split; [reflexivity|]. split; [discriminate|].
  apply (main_fails_fast kernel_no_bus boot0 boot_main_no_bus (-1));
    [reflexivity|discriminate].
Defined.

Example main_without_bus :
  map fst (calls boot_main_no_bus)
  = firstn 12 (main_requests 3) /\
  console boot_main_no_bus
  = [Fprintf "can-joystick"; Fprintf "Failed to init listener on bus 0"].
Proof. split; reflexivity. Qed.

(** X13: [main] returns 0 only at the end of the full sequence. It
    returns 0 exactly when every call it made succeeded; it has then
    opened the device (descriptor [fd], not negative), made the nine
    set-up requests on [fd], initialised the library, configured bus 0 of
    device 0 at 500 kbit/s with no filters and [fd] as callback argument,
    started it, paused, and closed the library, in that order, and has
    printed only its banner. *)
Theorem main_returns_zero (env : kernel) (b b' : Boot) (code : Z) :
  main env b = (code, b') ->
  exists tr,
    calls b' = calls b ++ tr /\
    (code = 0 <-> Forall (fun p => call_ok p = true) tr) /\
    (code = 0 ->
     exists fd rest,
       0 <= fd /\
       tr = (c_open "/dev/uinput" [O_WRONLY; O_NONBLOCK], fd) :: rest /\
       map fst tr = main_requests fd /\
       console b' = console b ++ [Fprintf "can-joystick"]).
Proof.
  intros Hrun. apply main_run in Hrun.
  destruct Hrun as (tr & lines & Hc & Hcon & [(-> & -> & Hok)|(-> & Hfail)]).
  - exists tr. split; [assumption|].
    destruct Hok as (fd & rest & Hfd & Htr & Hmap & Hall).
    split; [now split|]. intros _. now exists fd, rest.
  - exists tr. split; [assumption|].
    destruct Hfail as (pre & c & r & n & fd & l & -> & Hbad & _).
    split; [|discriminate]. split; [discriminate|].
    intros Hall. apply Forall_app in Hall as [_ Hlast].
    inversion Hlast as [|p q Hp _]; subst. congruence.
Qed.

Lemma main_returns_zero_witness :
  main kernel_ok boot0 = (0, boot_main_ok) /\
  exists tr,
    calls boot_main_ok = calls boot0 ++ tr /\
    (0 = 0 <-> Forall (fun p => call_ok p = true) tr) /\
    (0 = 0 ->
     exists fd rest,
       0 <= fd /\
       tr = (c_open "/dev/uinput" [O_WRONLY; O_NONBLOCK], fd) :: rest /\
       map fst tr = main_requests fd /\
       console boot_main_ok = console boot0 ++ [Fprintf "can-joystick"]).
Proof.
  split; [reflexivity|].
  apply (main_returns_zero kernel_ok boot0 boot_main_ok 0). reflexivity.
Defined.
